(** * A library-management domain model (learning_OOPS.py)

    Shallow embedding of the classes [Book], [Member], [StudentMember],
    [FacultyMember] and [Library] of [learning_OOPS.py], and proofs about
    them.

    Python objects are mutable and shared by reference: a [Book] that sits
    in a library's [books] list and in a member's [borrowed_books] list is
    one object.  The model therefore keeps an explicit store with one heap
    per class; a reference is an index into its heap.  Objects are never
    freed.  Every method is a function from the store to either a result
    and a new store, or a raised fault and the store at that point.  The
    text that [print] writes is not part of the model, but building it
    is: formatting an integer of more than 4300 digits raises
    [ValueError].  The display methods return the lines they print.  The
    interactive loop [run_cli] reads its input from a list of lines. *)

From stdpp Require Import base list strings gmap pretty.
From Stdlib Require Import ZArith Lia.

Open Scope string_scope.
Open Scope list_scope.
Open Scope nat_scope.

(** ** Objects *)

Abbreviation book_ref := nat (only parsing).
Abbreviation member_ref := nat (only parsing).
Abbreviation library_ref := nat (only parsing).

Module Book.
(** [class Book]: [__book_id] is the private field read by
    [get_book_id]. *)
Record t := mk {
  title : string;
  author : string;
  book_id : Z;
  is_available : bool
}.

Definition get_book_id (b : t) : Z := book_id b.

Definition set_is_available (v : bool) (b : t) : t :=
  mk (title b) (author b) (book_id b) v.
End Book.

(** The concrete class of a member object; [borrow_book] is dispatched on
    it.  [Person] is abstract and has no instances. *)
Inductive MemberClass := BaseMember | StudentMember | FacultyMember.

#[global] Instance MemberClass_eq_dec : EqDecision MemberClass.
Proof. solve_decision. Defined.

Module Member.
Record t := mk {
  cls : MemberClass;
  name : string;
  member_id : Z;
  borrowed_books : list book_ref
}.

Definition get_member_id (m : t) : Z := member_id m.

Definition get_role (m : t) : string :=
  match cls m with
  | BaseMember => "Member"
  | StudentMember => "Student"
  | FacultyMember => "Faculty"
  end.

Definition set_borrowed_books (l : list book_ref) (m : t) : t :=
  mk (cls m) (name m) (member_id m) l.
End Member.

Module Library.
Record t := mk {
  name : string;
  books : list book_ref;
  members : list member_ref
}.

Definition set_books (l : list book_ref) (x : t) : t :=
  mk (name x) l (members x).

Definition set_members (l : list member_ref) (x : t) : t :=
  mk (name x) (books x) l.
End Library.

(** ** The store and the monad of methods *)

Record Store := mkStore {
  book_heap : list Book.t;
  member_heap : list Member.t;
  library_heap : list Library.t
}.

Definition empty_store : Store := mkStore [] [] [].

(** [ValueError] is what [list.remove] raises on a missing element, and
    what the conversion of an integer to text raises when the integer
    has too many digits.  [Dangling] is a reference outside its heap:
    Python has no such reference, the model only meets it on an
    ill-formed store. *)
Inductive Fault := ValueError | Dangling.

(** A call returns, or raises; either way it leaves a store behind:
    what it changed before it raised stays changed. *)
Inductive Res (A : Type) :=
| Ok (a : A) (s : Store)
| Raise (f : Fault) (s : Store).
Arguments Ok {A} a s.
Arguments Raise {A} f s.

Definition Py (A : Type) : Type := Store -> Res A.

Definition ret {A} (a : A) : Py A := fun s => Ok a s.

Definition bind {A B} (c : Py A) (k : A -> Py B) : Py B :=
  fun s => match c s with
           | Ok a s' => k a s'
           | Raise f s' => Raise f s'
           end.

Definition raise {A} (f : Fault) : Py A := fun s => Raise f s.

Notation "x <- c ;; k" := (bind c (fun x => k))
  (at level 100, c at next level, right associativity).
Notation "c ;;; k" := (bind c (fun _ => k))
  (at level 100, right associativity).

(** Heap access. *)

Definition read_book (r : book_ref) : Py Book.t :=
  fun s => match book_heap s !! r with
           | Some b => Ok b s
           | None => Raise Dangling s
           end.

Definition write_book (r : book_ref) (b : Book.t) : Py unit :=
  fun s => match book_heap s !! r with
           | Some _ => Ok tt (mkStore (<[r := b]> (book_heap s))
                                      (member_heap s) (library_heap s))
           | None => Raise Dangling s
           end.

Definition alloc_book (b : Book.t) : Py book_ref :=
  fun s => Ok (length (book_heap s))
              (mkStore (book_heap s ++ [b]) (member_heap s) (library_heap s)).

Definition read_member (r : member_ref) : Py Member.t :=
  fun s => match member_heap s !! r with
           | Some m => Ok m s
           | None => Raise Dangling s
           end.

Definition write_member (r : member_ref) (m : Member.t) : Py unit :=
  fun s => match member_heap s !! r with
           | Some _ => Ok tt (mkStore (book_heap s)
                                      (<[r := m]> (member_heap s))
                                      (library_heap s))
           | None => Raise Dangling s
           end.

Definition alloc_member (m : Member.t) : Py member_ref :=
  fun s => Ok (length (member_heap s))
              (mkStore (book_heap s) (member_heap s ++ [m]) (library_heap s)).

Definition read_library (r : library_ref) : Py Library.t :=
  fun s => match library_heap s !! r with
           | Some x => Ok x s
           | None => Raise Dangling s
           end.

Definition write_library (r : library_ref) (x : Library.t) : Py unit :=
  fun s => match library_heap s !! r with
           | Some _ => Ok tt (mkStore (book_heap s) (member_heap s)
                                      (<[r := x]> (library_heap s)))
           | None => Raise Dangling s
           end.

Definition alloc_library (x : Library.t) : Py library_ref :=
  fun s => Ok (length (library_heap s))
              (mkStore (book_heap s) (member_heap s) (library_heap s ++ [x])).

(** The number of decimal digits of an integer, sign apart. *)
Definition decimal_digits (z : Z) : nat :=
  Decimal.nb_digits (N.to_uint (Z.abs_N z)).

(** [sys.get_int_max_str_digits()], as CPython sets it by default. *)
Definition int_max_str_digits : N := 4300.

(** Whether [str(z)] goes through: CPython refuses to convert an
    integer of more than [int_max_str_digits] digits to decimal text. *)
Definition str_ok (z : Z) : bool :=
  (N.of_nat (decimal_digits z) <=? int_max_str_digits)%N.

(** [str(z)], and [{z}] in an f-string, for an integer [z]. *)
Definition str_int (z : Z) : Py string :=
  fun s => if str_ok z then Ok (pretty z) s else Raise ValueError s.

(** Python's [list.remove(x)]: drops the first element equal to [x] and
    raises [ValueError] when there is none.  Neither [Book] nor [Member]
    defines [__eq__], so equality of objects is equality of references. *)
Fixpoint list_remove (x : nat) (l : list nat) : option (list nat) :=
  match l with
  | [] => None
  | y :: t => if decide (y = x) then Some t
              else match list_remove x t with
                   | Some t' => Some (y :: t')
                   | None => None
                   end
  end.

(** ** class Book *)

(** [Book.__init__] *)
Definition Book___init__ (title author : string) (book_id : Z) : Py book_ref :=
  alloc_book (Book.mk title author book_id true).

(** [Book.__str__]: the f-string converts [__book_id]. *)
Definition Book___str__ (self : book_ref) : Py string :=
  b <- read_book self ;;
  id <- str_int (Book.book_id b) ;;
  ret ("[" +:+ id +:+ "] " +:+ Book.title b +:+ " by " +:+
       Book.author b +:+ " - " +:+
       (if Book.is_available b then "Available" else "Borrowed"))%string.

(** ** class Member and its subclasses *)

(** [Member.__init__] for an object of class [c]; the subclasses inherit
    it unchanged. *)
Definition Member___init__ (c : MemberClass) (name : string) (member_id : Z)
  : Py member_ref :=
  alloc_member (Member.mk c name member_id []).

(** [book.is_available = v] *)
Definition assign_is_available (book : book_ref) (v : bool) : Py unit :=
  b <- read_book book ;;
  write_book book (Book.set_is_available v b).

(** [self.borrowed_books.append(book)] *)
Definition borrowed_books_append (self : member_ref) (book : book_ref)
  : Py unit :=
  m <- read_member self ;;
  write_member self
    (Member.set_borrowed_books (Member.borrowed_books m ++ [book]) m).

(** [self.borrowed_books.remove(b)] *)
Definition borrowed_books_remove (self : member_ref) (b : book_ref)
  : Py unit :=
  m <- read_member self ;;
  match list_remove b (Member.borrowed_books m) with
  | Some l => write_member self (Member.set_borrowed_books l m)
  | None => raise ValueError
  end.

(** [Member.borrow_book] *)
Definition Member_borrow_book (self : member_ref) (book : book_ref)
  : Py bool :=
  b <- read_book book ;;
  if Book.is_available b then
    assign_is_available book false ;;;
    borrowed_books_append self book ;;;
    ret true
  else ret false.

Definition StudentMember_MAX_BORROW : nat := 3.
Definition FacultyMember_MAX_BORROW : nat := 10.

(** [StudentMember.borrow_book] *)
Definition StudentMember_borrow_book (self : member_ref) (book : book_ref)
  : Py bool :=
  m <- read_member self ;;
  if StudentMember_MAX_BORROW <=? length (Member.borrowed_books m) then
    ret false
  else
    b <- read_book book ;;
    if negb (Book.is_available b) then ret false
    else
      assign_is_available book false ;;;
      borrowed_books_append self book ;;;
      ret true.

(** [FacultyMember.borrow_book] *)
Definition FacultyMember_borrow_book (self : member_ref) (book : book_ref)
  : Py bool :=
  m <- read_member self ;;
  if FacultyMember_MAX_BORROW <=? length (Member.borrowed_books m) then
    ret false
  else
    b <- read_book book ;;
    if negb (Book.is_available b) then ret false
    else
      assign_is_available book false ;;;
      borrowed_books_append self book ;;;
      ret true.

(** [member.borrow_book(book)]: the method of the object's class. *)
Definition borrow_book (self : member_ref) (book : book_ref) : Py bool :=
  m <- read_member self ;;
  match Member.cls m with
  | BaseMember => Member_borrow_book self book
  | StudentMember => StudentMember_borrow_book self book
  | FacultyMember => FacultyMember_borrow_book self book
  end.

(** The loop of [Member.return_book] over the remaining entries [bs] of
    [self.borrowed_books]; it returns from inside the loop at the first
    match, so the list is never read again after it was changed.  After
    the loop, the message shows [book_id]. *)
Fixpoint return_book_loop (self : member_ref) (bs : list book_ref)
  (book_id : Z) : Py bool :=
  match bs with
  | [] => _ <- str_int book_id ;; ret false
  | b :: rest =>
      bk <- read_book b ;;
      if (Book.get_book_id bk =? book_id)%Z then
        assign_is_available b true ;;;
        borrowed_books_remove self b ;;;
        ret true
      else return_book_loop self rest book_id
  end.

(** [Member.return_book], inherited by both subclasses. *)
Definition Member_return_book (self : member_ref) (book_id : Z) : Py bool :=
  m <- read_member self ;;
  return_book_loop self (Member.borrowed_books m) book_id.

(** The line feed that ["\n"] stands for. *)
Definition newline : string := String (Ascii.ascii_of_nat 10) EmptyString.

(** The loop [for b in ...: print(f"  - {b}")] of [show_books] and
    [list_borrowed]: the lines it prints. *)
Fixpoint print_books_loop (bs : list book_ref) : Py (list string) :=
  match bs with
  | [] => ret []
  | b :: rest =>
      text <- Book___str__ b ;;
      lines <- print_books_loop rest ;;
      ret (("  - " +:+ text)%string :: lines)
  end.

(** [Member.list_borrowed]: the lines it prints. *)
Definition Member_list_borrowed (self : member_ref) : Py (list string) :=
  m <- read_member self ;;
  match Member.borrowed_books m with
  | [] => ret [(Member.name m +:+ " has no borrowed books.")%string]
  | _ :: _ =>
      lines <- print_books_loop (Member.borrowed_books m) ;;
      ret (("Borrowed by " +:+ Member.name m +:+ ":")%string :: lines)
  end.

(** ** class Library *)

(** [Library.__init__] *)
Definition Library___init__ (name : string) : Py library_ref :=
  alloc_library (Library.mk name [] []).

(** [lib.books.append(book)] *)
Definition books_append (lib : library_ref) (book : book_ref) : Py unit :=
  x <- read_library lib ;;
  write_library lib (Library.set_books (Library.books x ++ [book]) x).

(** [lib.books.remove(b)] *)
Definition books_remove (lib : library_ref) (b : book_ref) : Py unit :=
  x <- read_library lib ;;
  match list_remove b (Library.books x) with
  | Some l => write_library lib (Library.set_books l x)
  | None => raise ValueError
  end.

(** [lib.members.append(member)] *)
Definition members_append (lib : library_ref) (member : member_ref)
  : Py unit :=
  x <- read_library lib ;;
  write_library lib (Library.set_members (Library.members x ++ [member]) x).

(** [Library.add_book]; the message it prints reads [book.title]. *)
Definition Library_add_book (self : library_ref) (book : book_ref)
  : Py unit :=
  books_append self book ;;;
  _ <- read_book book ;;
  ret tt.

(** The loop of [Library.remove_book] over the remaining entries [bs] of
    [self.books]; after the loop, the message shows [book_id]. *)
Fixpoint remove_book_loop (self : library_ref) (bs : list book_ref)
  (book_id : Z) : Py bool :=
  match bs with
  | [] => _ <- str_int book_id ;; ret false
  | b :: rest =>
      bk <- read_book b ;;
      if (Book.get_book_id bk =? book_id)%Z && Book.is_available bk then
        books_remove self b ;;;
        ret true
      else remove_book_loop self rest book_id
  end.

(** [Library.remove_book] *)
Definition Library_remove_book (self : library_ref) (book_id : Z)
  : Py bool :=
  x <- read_library self ;;
  remove_book_loop self (Library.books x) book_id.

Fixpoint find_book_loop (bs : list book_ref) (book_id : Z)
  : Py (option book_ref) :=
  match bs with
  | [] => ret None
  | b :: rest =>
      bk <- read_book b ;;
      if (Book.get_book_id bk =? book_id)%Z then ret (Some b)
      else find_book_loop rest book_id
  end.

(** [Library.find_book] *)
Definition Library_find_book (self : library_ref) (book_id : Z)
  : Py (option book_ref) :=
  x <- read_library self ;;
  find_book_loop (Library.books x) book_id.

(** [Library.show_books]: the lines it prints; an empty list is false
    in a condition. *)
Definition Library_show_books (self : library_ref) : Py (list string) :=
  x <- read_library self ;;
  match Library.books x with
  | [] =>
      ret [(newline +:+ "Books in " +:+ Library.name x +:+ ":")%string;
           "  No books found."]
  | _ :: _ =>
      lines <- print_books_loop (Library.books x) ;;
      ret ((newline +:+ "Books in " +:+ Library.name x +:+ ":")%string
           :: lines)
  end.

(** [Library.add_member]: the member is appended, then the message
    shows its [member_id]. *)
Definition Library_add_member (self : library_ref) (member : member_ref)
  : Py unit :=
  members_append self member ;;;
  mem <- read_member member ;;
  _ <- str_int (Member.get_member_id mem) ;;
  ret tt.

Fixpoint get_member_loop (ms : list member_ref) (member_id : Z)
  : Py (option member_ref) :=
  match ms with
  | [] => ret None
  | m :: rest =>
      mem <- read_member m ;;
      if (Member.get_member_id mem =? member_id)%Z then ret (Some m)
      else get_member_loop rest member_id
  end.

(** [Library.get_member_by_id] *)
Definition Library_get_member_by_id (self : library_ref) (member_id : Z)
  : Py (option member_ref) :=
  x <- read_library self ;;
  get_member_loop (Library.members x) member_id.

(** [Library.borrow].  An object of class [Member] or [Book] is always
    true in a condition, so [not member] holds exactly for [None].  The
    two messages show the identifier that was not found. *)
Definition Library_borrow (self : library_ref) (member_id book_id : Z)
  : Py bool :=
  member <- Library_get_member_by_id self member_id ;;
  book <- Library_find_book self book_id ;;
  match member with
  | None => _ <- str_int member_id ;; ret false
  | Some m =>
      match book with
      | None => _ <- str_int book_id ;; ret false
      | Some b => borrow_book m b
      end
  end.

(** [Library.return_book] *)
Definition Library_return_book (self : library_ref) (member_id book_id : Z)
  : Py bool :=
  member <- Library_get_member_by_id self member_id ;;
  match member with
  | None => _ <- str_int member_id ;; ret false
  | Some m => Member_return_book m book_id
  end.

(** The first loop of [Library.__add__], over the remaining entries [bs]
    of [self.books + other.books], with the set [seen_ids]. *)
Fixpoint merge_books_loop (merged : library_ref) (bs : list book_ref)
  (seen_ids : gset Z) : Py unit :=
  match bs with
  | [] => ret tt
  | b :: rest =>
      bk <- read_book b ;;
      if bool_decide (Book.get_book_id bk ∉ seen_ids) then
        books_append merged b ;;;
        merge_books_loop merged rest ({[Book.get_book_id bk]} ∪ seen_ids)
      else merge_books_loop merged rest seen_ids
  end.

(** The second loop of [Library.__add__]. *)
Fixpoint merge_members_loop (merged : library_ref) (ms : list member_ref)
  (seen_member_ids : gset Z) : Py unit :=
  match ms with
  | [] => ret tt
  | m :: rest =>
      mem <- read_member m ;;
      if bool_decide (Member.get_member_id mem ∉ seen_member_ids) then
        members_append merged m ;;;
        merge_members_loop merged rest
          ({[Member.get_member_id mem]} ∪ seen_member_ids)
      else merge_members_loop merged rest seen_member_ids
  end.

(** [Library.__add__]: [self + other]. *)
Definition Library___add__ (self other : library_ref) : Py library_ref :=
  a <- read_library self ;;
  o <- read_library other ;;
  merged <- Library___init__ (Library.name a ++ " & " ++ Library.name o) ;;
  a <- read_library self ;;
  o <- read_library other ;;
  merge_books_loop merged (Library.books a ++ Library.books o) ∅ ;;;
  a <- read_library self ;;
  o <- read_library other ;;
  merge_members_loop merged (Library.members a ++ Library.members o) ∅ ;;;
  ret merged.

(** ** Programs: sequences of calls *)

(** What a call returns: [None], a boolean, a fresh object, the
    optional object of a lookup, a text, or an integer. *)
Inductive Value :=
| VNone
| VBool (b : bool)
| VRef (r : nat)
| VOpt (o : option nat)
| VStr (t : string)
| VInt (z : Z).

(** One call: a constructor, a method of a book or of a member object
    called directly, or a method of a library. *)
Inductive Op :=
| NewBook (title author : string) (book_id : Z)
| NewMember (c : MemberClass) (name : string) (member_id : Z)
| NewLibrary (name : string)
| MemberBorrow (m : member_ref) (b : book_ref)
| MemberReturn (m : member_ref) (book_id : Z)
| AddBook (lib : library_ref) (b : book_ref)
| RemoveBook (lib : library_ref) (book_id : Z)
| FindBook (lib : library_ref) (book_id : Z)
| AddMember (lib : library_ref) (m : member_ref)
| GetMember (lib : library_ref) (member_id : Z)
| Borrow (lib : library_ref) (member_id book_id : Z)
| ReturnBook (lib : library_ref) (member_id book_id : Z)
| Merge (lib other : library_ref)
| Str (b : book_ref)
| ListBorrowed (m : member_ref)
| ShowBooks (lib : library_ref)
| GetRole (m : member_ref)
| GetMemberId (m : member_ref)
| GetBookId (b : book_ref).

(** Carries out one call. *)
Definition exec (op : Op) : Py Value :=
  match op with
  | NewBook t a i => r <- Book___init__ t a i ;; ret (VRef r)
  | NewMember c n i => r <- Member___init__ c n i ;; ret (VRef r)
  | NewLibrary n => r <- Library___init__ n ;; ret (VRef r)
  | MemberBorrow m b => r <- borrow_book m b ;; ret (VBool r)
  | MemberReturn m i => r <- Member_return_book m i ;; ret (VBool r)
  | AddBook l b => Library_add_book l b ;;; ret VNone
  | RemoveBook l i => r <- Library_remove_book l i ;; ret (VBool r)
  | FindBook l i => r <- Library_find_book l i ;; ret (VOpt r)
  | AddMember l m => Library_add_member l m ;;; ret VNone
  | GetMember l i => r <- Library_get_member_by_id l i ;; ret (VOpt r)
  | Borrow l m b => r <- Library_borrow l m b ;; ret (VBool r)
  | ReturnBook l m b => r <- Library_return_book l m b ;; ret (VBool r)
  | Merge l o => r <- Library___add__ l o ;; ret (VRef r)
  | Str b => r <- Book___str__ b ;; ret (VStr r)
  | ListBorrowed m => Member_list_borrowed m ;;; ret VNone
  | ShowBooks l => Library_show_books l ;;; ret VNone
  | GetRole m => mem <- read_member m ;; ret (VStr (Member.get_role mem))
  | GetMemberId m =>
      mem <- read_member m ;; ret (VInt (Member.get_member_id mem))
  | GetBookId b => bk <- read_book b ;; ret (VInt (Book.get_book_id bk))
  end.

(** Runs the calls in order; a raised fault ends the run. *)
Fixpoint run (ops : list Op) (s : Store) : Res (list Value) :=
  match ops with
  | [] => Ok [] s
  | op :: rest =>
      match exec op s with
      | Ok v s' =>
          match run rest s' with
          | Ok vs s'' => Ok (v :: vs) s''
          | Raise f s'' => Raise f s''
          end
      | Raise f s' => Raise f s'
      end
  end.

(** The references a call is given point to objects of the store; a
    Python caller has no other kind of reference. *)
Definition valid_call (s : Store) (op : Op) : Prop :=
  match op with
  | NewBook _ _ _ | NewMember _ _ _ | NewLibrary _ => True
  | MemberBorrow m b =>
      m < length (member_heap s) /\ b < length (book_heap s)
  | MemberReturn m _ | ListBorrowed m | GetRole m | GetMemberId m =>
      m < length (member_heap s)
  | Str b | GetBookId b => b < length (book_heap s)
  | AddBook lib b =>
      lib < length (library_heap s) /\ b < length (book_heap s)
  | AddMember lib m =>
      lib < length (library_heap s) /\ m < length (member_heap s)
  | RemoveBook lib _ | FindBook lib _ | GetMember lib _
  | Borrow lib _ _ | ReturnBook lib _ _ | ShowBooks lib =>
      lib < length (library_heap s)
  | Merge lib other =>
      lib < length (library_heap s) /\ other < length (library_heap s)
  end.

(** The stores a program can produce, starting with no object at all.
    A call that raises is part of a program as well: the caller can
    catch the exception and go on with the store the call left. *)
Inductive reachable : Store -> Prop :=
| reachable_empty : reachable empty_store
| reachable_step s op v s' :
    reachable s -> exec op s = Ok v s' -> reachable s'
| reachable_raise s op f s' :
    reachable s -> valid_call s op -> exec op s = Raise f s' ->
    reachable s'.

(** [seed_demo_data]: the two libraries the session starts with. *)
Definition seed_demo_data : Py (library_ref * library_ref) :=
  lib1 <- Library___init__ "Central Library" ;;
  b <- Book___init__ "Python Basics" "Guido van Rossum" 101 ;;
  Library_add_book lib1 b ;;;
  b <- Book___init__ "Data Structures" "N. Wirth" 102 ;;
  Library_add_book lib1 b ;;;
  m <- Member___init__ StudentMember "Alice" 1 ;;
  Library_add_member lib1 m ;;;
  m <- Member___init__ FacultyMember "Dr. Bob" 2 ;;
  Library_add_member lib1 m ;;;
  lib2 <- Library___init__ "AI Library" ;;
  b <- Book___init__ "AI: A Modern Approach" "Russell & Norvig" 201 ;;
  Library_add_book lib2 b ;;;
  b <- Book___init__ "Deep Learning" "Goodfellow et al." 202 ;;
  Library_add_book lib2 b ;;;
  m <- Member___init__ StudentMember "Charlie" 3 ;;
  Library_add_member lib2 m ;;;
  m <- Member___init__ FacultyMember "Prof. Dana" 4 ;;
  Library_add_member lib2 m ;;;
  ret (lib1, lib2).

(** ** Pure descriptions of what the methods do to the store *)

(** The borrowing limit of each class; [Member.borrow_book] has none. *)
Definition max_borrow (c : MemberClass) : option nat :=
  match c with
  | BaseMember => None
  | StudentMember => Some StudentMember_MAX_BORROW
  | FacultyMember => Some FacultyMember_MAX_BORROW
  end.

(** The test [len(self.borrowed_books) >= self.MAX_BORROW]. *)
Definition at_limit (mem : Member.t) : bool :=
  match max_borrow (Member.cls mem) with
  | Some n => n <=? length (Member.borrowed_books mem)
  | None => false
  end.

(** The store with one object replaced. *)
Definition put_book (r : book_ref) (bk : Book.t) (s : Store) : Store :=
  mkStore (<[r := bk]> (book_heap s)) (member_heap s) (library_heap s).

Definition put_member (r : member_ref) (mem : Member.t) (s : Store)
  : Store :=
  mkStore (book_heap s) (<[r := mem]> (member_heap s)) (library_heap s).

Definition put_library (r : library_ref) (x : Library.t) (s : Store)
  : Store :=
  mkStore (book_heap s) (member_heap s) (<[r := x]> (library_heap s)).

(** The store after [self] has taken [book]. *)
Definition lend (self : member_ref) (book : book_ref) (mem : Member.t)
  (bk : Book.t) (s : Store) : Store :=
  put_member self
    (Member.set_borrowed_books (Member.borrowed_books mem ++ [book]) mem)
    (put_book book (Book.set_is_available false bk) s).

(** The store after [self] has given [book] back, [rest] being what is
    left of its list. *)
Definition give_back (self : member_ref) (book : book_ref) (mem : Member.t)
  (bk : Book.t) (rest : list book_ref) (s : Store) : Store :=
  put_member self (Member.set_borrowed_books rest mem)
    (put_book book (Book.set_is_available true bk) s).

(** A refusal whose message shows the integer [z]: [False] and the
    store as it is, unless the message cannot be built. *)
Definition refused (z : Z) (s : Store) : Res bool :=
  if str_ok z then Ok false s else Raise ValueError s.

(** The first reference of [bs] whose object satisfies [p]. *)
Definition first_ref {A} (heap : list A) (p : A -> bool)
  (bs : list nat) : option nat :=
  find (fun r => match heap !! r with Some x => p x | None => false end) bs.

(** The tests of the three search loops. *)
Definition has_book_id (book_id : Z) (bk : Book.t) : bool :=
  (Book.get_book_id bk =? book_id)%Z.

Definition has_member_id (member_id : Z) (mem : Member.t) : bool :=
  (Member.get_member_id mem =? member_id)%Z.

Definition removable (book_id : Z) (bk : Book.t) : bool :=
  (Book.get_book_id bk =? book_id)%Z && Book.is_available bk.

(** ** Well-formed stores *)

(** All references of [l] point into a heap of [n] objects. *)
Definition refs_ok (n : nat) (l : list nat) : Prop := Forall (fun r => r < n) l.

(** Well-formed stores: no dangling reference. *)
Record wf (s : Store) : Prop := mk_wf {
  wf_borrowed : forall m mem,
    member_heap s !! m = Some mem ->
    refs_ok (length (book_heap s)) (Member.borrowed_books mem);
  wf_books : forall l x,
    library_heap s !! l = Some x ->
    refs_ok (length (book_heap s)) (Library.books x);
  wf_members : forall l x,
    library_heap s !! l = Some x ->
    refs_ok (length (member_heap s)) (Library.members x)
}.

(** ** The merge, on lists of references *)

(** The identifier of the object behind a reference; the default is
    never used on a well-formed store. *)
Definition book_id_of (s : Store) (r : book_ref) : Z :=
  match book_heap s !! r with
  | Some bk => Book.get_book_id bk
  | None => 0%Z
  end.

Definition member_id_of (s : Store) (r : member_ref) : Z :=
  match member_heap s !! r with
  | Some mem => Member.get_member_id mem
  | None => 0%Z
  end.

(** What one of the two loops of [Library.__add__] appends to the merged
    list, given the identifier [key] of every object. *)
Fixpoint merge_loop_result (key : nat -> Z) (rs : list nat)
  (seen : gset Z) : list nat :=
  match rs with
  | [] => []
  | r :: rest =>
      if bool_decide (key r ∉ seen) then
        r :: merge_loop_result key rest ({[key r]} ∪ seen)
      else merge_loop_result key rest seen
  end.

(** The merge as the specification words it: the list [l], deduplicated
    by identifier, keeping of each identifier the first entry that
    carries it, in the order of [l]. *)
Fixpoint keep_first (key : nat -> Z) (l : list nat) : list nat :=
  match l with
  | [] => []
  | r :: rest => r :: filter (fun r' => key r' ≠ key r) (keep_first key rest)
  end.


(** The library that [self + other] builds. *)
Definition merged_library (s : Store) (a o : Library.t) : Library.t :=
  Library.mk (Library.name a ++ " & " ++ Library.name o)
    (keep_first (book_id_of s) (Library.books a ++ Library.books o))
    (keep_first (member_id_of s) (Library.members a ++ Library.members o)).

(** ** The ways a call can change the store *)

(** The lists of the libraries [lh] point into the heaps of [s]. *)
Definition libraries_ok (s : Store) (lh : list Library.t) : Prop :=
  forall l x, lh !! l = Some x ->
    refs_ok (length (book_heap s)) (Library.books x) /\
    refs_ok (length (member_heap s)) (Library.members x).

(** A call leaves the store alone, or adds one fresh object, or
    changes libraries only, or lends one available book to a member
    below its limit, or takes one book back from a member. *)
Inductive effect (s : Store) : Store -> Prop :=
| effect_none : effect s s
| effect_new_book t a i :
    effect s (mkStore (book_heap s ++ [Book.mk t a i true])
                (member_heap s) (library_heap s))
| effect_new_member c n i :
    effect s (mkStore (book_heap s) (member_heap s ++ [Member.mk c n i []])
                (library_heap s))
| effect_libraries lh :
    libraries_ok s lh ->
    effect s (mkStore (book_heap s) (member_heap s) lh)
| effect_lend m b mem bk :
    member_heap s !! m = Some mem ->
    book_heap s !! b = Some bk ->
    at_limit mem = false ->
    Book.is_available bk = true ->
    effect s (lend m b mem bk s)
| effect_give_back m b mem bk rest :
    member_heap s !! m = Some mem ->
    book_heap s !! b = Some bk ->
    list_remove b (Member.borrowed_books mem) = Some rest ->
    effect s (give_back m b mem bk rest s).

(** ** Invariants *)

(** Member [m] has book [b] in its [borrowed_books]. *)
Definition holds (s : Store) (m : member_ref) (b : book_ref) : Prop :=
  exists mem, member_heap s !! m = Some mem /\ b ∈ Member.borrowed_books mem.

(** Books and members agree: a held book is unavailable, an unavailable
    book is held, by one member, once; and no member is over its
    limit. *)
Record consistent (s : Store) : Prop := mk_consistent {
  held_unavailable : forall m b,
    holds s m b ->
    exists bk, book_heap s !! b = Some bk /\ Book.is_available bk = false;
  unavailable_held : forall b bk,
    book_heap s !! b = Some bk -> Book.is_available bk = false ->
    exists m, holds s m b;
  holder_unique : forall m m' b, holds s m b -> holds s m' b -> m = m';
  borrowed_NoDup : forall m mem,
    member_heap s !! m = Some mem -> NoDup (Member.borrowed_books mem);
  within_limit : forall m mem n,
    member_heap s !! m = Some mem ->
    max_borrow (Member.cls mem) = Some n ->
    length (Member.borrowed_books mem) <= n
}.

(** ** Example programs *)

(** The store a program leaves behind, or the empty one if it raised. *)
Definition store_after (ops : list Op) : Store :=
  match run ops empty_store with
  | Ok _ s => s
  | Raise _ _ => empty_store
  end.

(** A library with one book and one member. *)
Definition one_book_library : list Op :=
  [NewLibrary "C"; NewBook "Python Basics" "Guido van Rossum" 101;
   NewMember StudentMember "Alice" 1; AddBook 0 0; AddMember 0 0].

(** The same, after the member has borrowed the book. *)
Definition lent_once : list Op := one_book_library ++ [Borrow 0 1 101].

(** Alice, a student, has taken three books; a fourth one is on the
    shelf. *)
Definition student_full : list Op :=
  [NewLibrary "C"; NewMember StudentMember "Alice" 1; AddMember 0 0;
   NewBook "A" "a" 1; NewBook "B" "b" 2; NewBook "C" "c" 3; NewBook "D" "d" 4;
   AddBook 0 0; AddBook 0 1; AddBook 0 2; AddBook 0 3;
   Borrow 0 1 1; Borrow 0 1 2; Borrow 0 1 3].

(** Library [0] has books 1 and 2, library [1] has its own books 2
    and 3. *)
Definition two_libraries : list Op :=
  [NewLibrary "A"; NewLibrary "B";
   NewBook "one" "a" 1; NewBook "two" "a" 2;
   NewBook "two again" "b" 2; NewBook "three" "b" 3;
   AddBook 0 0; AddBook 0 1; AddBook 1 2; AddBook 1 3].


(** One member, two books that both carry identifier 1. *)
Definition same_id_twice : list Op :=
  [NewBook "first" "a" 1; NewBook "second" "a" 1;
   NewMember StudentMember "Alice" 7; MemberBorrow 0 0].


(** The calls behind [seed_demo_data], then a session: merge the two
    libraries (menu 8), add a book with identifier 101 to the AI library
    (menu 3, accepted since that library has no such book), let Charlie
    borrow 101 in the merged library, where it is "Python Basics", then
    in the AI library, where it is the new book. *)
Definition seeded : list Op :=
  [NewLibrary "Central Library";
   NewBook "Python Basics" "Guido van Rossum" 101; AddBook 0 0;
   NewBook "Data Structures" "N. Wirth" 102; AddBook 0 1;
   NewMember StudentMember "Alice" 1; AddMember 0 0;
   NewMember FacultyMember "Dr. Bob" 2; AddMember 0 1;
   NewLibrary "AI Library";
   NewBook "AI: A Modern Approach" "Russell & Norvig" 201; AddBook 1 2;
   NewBook "Deep Learning" "Goodfellow et al." 202; AddBook 1 3;
   NewMember StudentMember "Charlie" 3; AddMember 1 2;
   NewMember FacultyMember "Prof. Dana" 4; AddMember 1 3].

Definition session : list Op :=
  seeded ++
  [Merge 0 1; NewBook "Another 101" "x" 101; AddBook 1 4;
   Borrow 2 3 101; Borrow 1 3 101].

(** ** What one call does to one book, and to one library *)






(** The integers that a call may have to turn into text: the
    identifiers its messages show, and those of the books it displays. *)
Definition shown_ids (s : Store) (op : Op) : list Z :=
  match op with
  | MemberReturn _ book_id | RemoveBook _ book_id => [book_id]
  | Borrow _ member_id book_id | ReturnBook _ member_id book_id =>
      [member_id; book_id]
  | AddMember _ m => [member_id_of s m]
  | Str b => [book_id_of s b]
  | ListBorrowed m =>
      match member_heap s !! m with
      | Some mem => book_id_of s <$> Member.borrowed_books mem
      | None => []
      end
  | ShowBooks lib =>
      match library_heap s !! lib with
      | Some x => book_id_of s <$> Library.books x
      | None => []
      end
  | _ => []
  end.


(** An integer of 4301 digits. *)
Definition long_id : Z := 10 ^ 4300.


(** ** What one call does to the members of a library *)

(** The call [op], made on [s] with references that exist, ends with
    the store [s']: it returns, or it raises. *)
Definition ends_in (op : Op) (s s' : Store) : Prop :=
  (exists v, exec op s = Ok v s') \/
  (valid_call s op /\ exists f, exec op s = Raise f s').

(** How one library's name and [members] fare across a call. *)
Definition members_step (s' : Store) (lib : library_ref) (x : Library.t)
  : Prop :=
  exists x', library_heap s' !! lib = Some x' /\
    Library.name x' = Library.name x /\
    exists more, Library.members x' = Library.members x ++ more.

(** ** Display *)

(** The text of a book, as [Book.__str__] builds it. *)
Definition book_text (bk : Book.t) : string :=
  ("[" +:+ pretty (Book.book_id bk) +:+ "] " +:+ Book.title bk +:+ " by " +:+
   Book.author bk +:+ " - " +:+
   (if Book.is_available bk then "Available" else "Borrowed"))%string.

(** The line [show_books] and [list_borrowed] print for a book. *)
Definition book_line (bk : Book.t) (status : string) : string :=
  ("  - [" +:+ pretty (Book.book_id bk) +:+ "] " +:+ Book.title bk +:+
   " by " +:+ Book.author bk +:+ " - " +:+ status)%string.

(** ** The session: [run_cli] *)

(** The built-in functions that the loop applies to what the user
    types: [int_of s] is the integer that [s] denotes, with [None] when
    it denotes none and [int(s)] raises [ValueError]; [strip s] is
    [s.strip()]; [lower s] is [s.lower()].  The loop is modelled for any
    such functions. *)
Record Builtins := mkBuiltins {
  int_of : string -> option Z;
  strip : string -> string;
  lower : string -> string
}.

(** What can end the program other than the menu: [input] at the end
    of the input, an index outside a list, or a fault of a method. *)
Inductive CliFault := EOFError | IndexError | MethodFault (f : Fault).

(** The variables of [run_cli], the store, and the lines not yet read. *)
Record CliState := mkCli {
  cli_store : Store;
  libraries : list library_ref;
  active_idx : Z;
  stdin : list string
}.

(** How a piece of the loop body ends: it falls through to the next
    statement, or it executes [continue] or [break], or it raises. *)
Inductive CliRes (A : Type) :=
| Next (a : A) (st : CliState)
| Continue (st : CliState)
| Break (st : CliState)
| Crash (f : CliFault).
Arguments Next {A} a st.
Arguments Continue {A} st.
Arguments Break {A} st.
Arguments Crash {A} f.

Definition Cli (A : Type) : Type := CliState -> CliRes A.

Definition cli_ret {A} (a : A) : Cli A := fun st => Next a st.

Definition cli_bind {A B} (c : Cli A) (k : A -> Cli B) : Cli B :=
  fun st => match c st with
            | Next a st' => k a st'
            | Continue st' => Continue st'
            | Break st' => Break st'
            | Crash f => Crash f
            end.

Notation "'let!' x ':=' c 'in' k" := (cli_bind c (fun x => k))
  (at level 10, x name, c at level 100, k at level 200).

Notation "'do!' c 'in' k" := (cli_bind c (fun _ => k))
  (at level 10, c at level 100, k at level 200).

(** [input(...)]: the next line, or [EOFError]. *)
Definition input : Cli string :=
  fun st => match stdin st with
            | [] => Crash EOFError
            | line :: rest =>
                Next line (mkCli (cli_store st) (libraries st)
                             (active_idx st) rest)
            end.

(** A call of a method of the classes; what it prints is dropped. *)
Definition call {A} (c : Py A) : Cli A :=
  fun st => match c (cli_store st) with
            | Ok a s' =>
                Next a (mkCli s' (libraries st) (active_idx st) (stdin st))
            | Raise f _ => Crash (MethodFault f)
            end.

(** [try: v = int(input(...).strip()) except ValueError: ...; continue].
    [int] also raises [ValueError] on a text of more than 4300 digits,
    so no integer with more digits comes out of it. *)
Definition read_int (B : Builtins) : Cli Z :=
  let! line := input in
  fun st => match int_of B (strip B line) with
            | Some z => if str_ok z then Next z st else Continue st
            | None => Continue st
            end.

(** [input(...).strip()] *)
Definition read_text (B : Builtins) : Cli string :=
  let! line := input in cli_ret (strip B line).

(** Python's [l[i]]: a negative index counts from the end. *)
Definition py_index {A} (l : list A) (i : Z) : option A :=
  if (0 <=? i)%Z then l !! Z.to_nat i
  else if (- Z.of_nat (length l) <=? i)%Z
       then l !! Z.to_nat (Z.of_nat (length l) + i)
       else None.

Definition getitem {A} (l : list A) (i : Z) : Cli A :=
  fun st => match py_index l i with
            | Some a => Next a st
            | None => Crash IndexError
            end.

Definition get_state : Cli CliState := fun st => Next st st.

(** Menu 2, register member. *)
Definition menu_register (B : Builtins) (active_lib : library_ref)
  : Cli unit :=
  let! name := read_text B in
  let! role_text := read_text B in
  let role := lower B role_text in
  let! member_id := read_int B in
  if String.eqb role "student" then
    let! m := call (Member___init__ StudentMember name member_id) in
    call (Library_add_member active_lib m)
  else if String.eqb role "faculty" then
    let! m := call (Member___init__ FacultyMember name member_id) in
    call (Library_add_member active_lib m)
  else cli_ret tt.

(** Menu 3, add book: refused when [find_book] finds the identifier. *)
Definition menu_add_book (B : Builtins) (active_lib : library_ref)
  : Cli unit :=
  let! title := read_text B in
  let! author := read_text B in
  let! book_id := read_int B in
  let! found := call (Library_find_book active_lib book_id) in
  match found with
  | Some _ => Continue
  | None =>
      let! b := call (Book___init__ title author book_id) in
      call (Library_add_book active_lib b)
  end.

(** Menu 4, remove book. *)
Definition menu_remove_book (B : Builtins) (active_lib : library_ref)
  : Cli unit :=
  let! book_id := read_int B in
  do! call (Library_remove_book active_lib book_id) in
  cli_ret tt.

(** Menu 5, borrow book: both numbers are read inside one [try]. *)
Definition menu_borrow (B : Builtins) (active_lib : library_ref)
  : Cli unit :=
  let! member_id := read_int B in
  let! book_id := read_int B in
  do! call (Library_borrow active_lib member_id book_id) in
  cli_ret tt.

(** Menu 6, return book. *)
Definition menu_return (B : Builtins) (active_lib : library_ref)
  : Cli unit :=
  let! member_id := read_int B in
  let! book_id := read_int B in
  do! call (Library_return_book active_lib member_id book_id) in
  cli_ret tt.

(** Menu 7, show a member's borrowed books. *)
Definition menu_list_borrowed (B : Builtins) (active_lib : library_ref)
  : Cli unit :=
  let! member_id := read_int B in
  let! member := call (Library_get_member_by_id active_lib member_id) in
  match member with
  | Some m => do! call (Member_list_borrowed m) in cli_ret tt
  | None => cli_ret tt
  end.

(** Menu 8, merge with [libraries[1 - active_idx]]; the merged library
    is appended and becomes the active one. *)
Definition menu_merge (active_lib : library_ref) : Cli unit :=
  let! st := get_state in
  let other_idx := (1 - active_idx st)%Z in
  let! other := getitem (libraries st) other_idx in
  let! merged := call (Library___add__ active_lib other) in
  fun st' =>
    Next tt (mkCli (cli_store st') (libraries st' ++ [merged])
               (Z.of_nat (length (libraries st' ++ [merged])) - 1)
               (stdin st')).

(** The loop of menu 9 that prints the position and the name of every
    library. *)
Fixpoint print_names_loop (libs : list library_ref) : Py unit :=
  match libs with
  | [] => ret tt
  | lib :: rest => _ <- read_library lib ;; print_names_loop rest
  end.

(** Menu 9, switch the active library. *)
Definition menu_switch (B : Builtins) : Cli unit :=
  let! st := get_state in
  do! call (print_names_loop (libraries st)) in
  let! new_idx := read_int B in
  fun st' =>
    if (0 <=? new_idx)%Z && (new_idx <? Z.of_nat (length (libraries st')))%Z
    then Next tt (mkCli (cli_store st') (libraries st') new_idx (stdin st'))
    else Next tt st'.

(** One turn of [while True] in [run_cli]. *)
Definition cli_body (B : Builtins) : Cli unit :=
  let! choice := read_int B in
  let! st := get_state in
  let! active_lib := getitem (libraries st) (active_idx st) in
  if (choice =? 1)%Z then
    do! call (Library_show_books active_lib) in cli_ret tt
  else if (choice =? 2)%Z then menu_register B active_lib
  else if (choice =? 3)%Z then menu_add_book B active_lib
  else if (choice =? 4)%Z then menu_remove_book B active_lib
  else if (choice =? 5)%Z then menu_borrow B active_lib
  else if (choice =? 6)%Z then menu_return B active_lib
  else if (choice =? 7)%Z then menu_list_borrowed B active_lib
  else if (choice =? 8)%Z then menu_merge active_lib
  else if (choice =? 9)%Z then menu_switch B
  else if (choice =? 0)%Z then Break
  else cli_ret tt.

(** How the program ends: by menu 0, by an uncaught exception, or, in
    the model only, by running out of the turns it was given. *)
Inductive CliEnd :=
| Exited (st : CliState)
| Crashed (f : CliFault)
| OutOfFuel.

(** At most [fuel] turns of the loop. *)
Fixpoint cli_loop (B : Builtins) (fuel : nat) (st : CliState) : CliEnd :=
  match fuel with
  | 0 => OutOfFuel
  | S n =>
      match cli_body B st with
      | Next _ st' | Continue st' => cli_loop B n st'
      | Break st' => Exited st'
      | Crash f => Crashed f
      end
  end.

(** [run_cli] on the input [lines]: every turn reads at least one
    line, so one turn more than there are lines is enough. *)
Definition run_cli (B : Builtins) (lines : list string) : CliEnd :=
  match seed_demo_data empty_store with
  | Ok (lib1, lib2) s =>
      cli_loop B (S (length lines)) (mkCli s [lib1; lib2] 0 lines)
  | Raise f _ => Crashed (MethodFault f)
  end.

(** Builtins for examples: [int_of] reads an optional minus sign and
    decimal digits; [strip] and [lower] leave the text as it is. *)
Fixpoint digits_value (s : string) (acc : N) : option N :=
  match s with
  | EmptyString => Some acc
  | String c rest =>
      let n := Ascii.nat_of_ascii c in
      if (48 <=? n) && (n <=? 57) then
        digits_value rest (10 * acc + N.of_nat (n - 48))%N
      else None
  end.

Definition decimal_int (s : string) : option Z :=
  match s with
  | EmptyString => None
  | String c rest =>
      if Nat.eqb (Ascii.nat_of_ascii c) 45 then
        match rest with
        | EmptyString => None
        | String _ _ =>
            match digits_value rest 0 with
            | Some n => Some (- Z.of_N n)%Z
            | None => None
            end
        end
      else
        match digits_value s 0 with
        | Some n => Some (Z.of_N n)
        | None => None
        end
  end.

Definition plain_builtins : Builtins :=
  mkBuiltins decimal_int (fun s => s) (fun s => s).

(** In every library of the store, no two entries of [books] carry the
    same [book_id]. *)
Definition unique_book_ids (s : Store) : Prop :=
  forall lib x, library_heap s !! lib = Some x ->
    NoDup (book_id_of s <$> Library.books x).

(** Every book of the store has an identifier that [str] converts. *)
Definition printable_books (s : Store) : Prop :=
  forall b bk, book_heap s !! b = Some bk -> str_ok (Book.book_id bk) = true.

(** What holds of the variables of [run_cli] at every turn. *)
Record session_ok (st : CliState) : Prop := mk_session_ok {
  so_reachable : reachable (cli_store st);
  so_two : 2 <= length (libraries st);
  so_active : (0 <= active_idx st < Z.of_nat (length (libraries st)))%Z;
  so_libraries :
    refs_ok (length (library_heap (cli_store st))) (libraries st);
  so_unique : unique_book_ids (cli_store st);
  so_printable : printable_books (cli_store st)
}.

(** What a piece of the loop body guarantees from [st]: [Q] if it falls
    through, [R] if it continues or breaks, and nothing but [EOFError]
    if it raises. *)
Definition cli_wp {A} (c : Cli A) (st : CliState)
  (Q : A -> CliState -> Prop) (R : CliState -> Prop) : Prop :=
  match c st with
  | Next a st' => Q a st'
  | Continue st' | Break st' => R st'
  | Crash f => f = EOFError
  end.

(** The state with another store, the variables and the input as they
    are. *)
Definition with_store (s' : Store) (st : CliState) : CliState :=
  mkCli s' (libraries st) (active_idx st) (stdin st).

(** A good state with at most [n] lines left to read. *)
Definition turn_ok (n : nat) (st : CliState) : Prop :=
  session_ok st /\ length (stdin st) <= n.

(** The state with other lines left to read. *)
Definition with_stdin (rest : list string) (st : CliState) : CliState :=
  mkCli (cli_store st) (libraries st) (active_idx st) rest.

(** Where [libraries[1 - active_idx]] is in the list. *)
Definition partner_position (len : nat) (idx : Z) : nat :=
  if (idx =? 0)%Z then 1
  else if (idx =? 1)%Z then 0
  else len + 1 - Z.to_nat idx.

(** * Proofs *)

(** ** Basic facts *)

Ltac unfold_py :=
  unfold bind, ret, raise, read_book, write_book, alloc_book, read_member,
    write_member, alloc_member, read_library, write_library, alloc_library
    in *.

Lemma read_book_eq s r bk :
  book_heap s !! r = Some bk -> read_book r s = Ok bk s.
Proof. intros H. unfold read_book. by rewrite H. Qed.

Lemma read_member_eq s r mem :
  member_heap s !! r = Some mem -> read_member r s = Ok mem s.
Proof. intros H. unfold read_member. by rewrite H. Qed.

Lemma read_library_eq s r x :
  library_heap s !! r = Some x -> read_library r s = Ok x s.
Proof. intros H. unfold read_library. by rewrite H. Qed.

Lemma list_remove_elem x l : x ∈ l -> is_Some (list_remove x l).
Proof.
  induction l as [|y t IH]; intros Hin.
  - by apply elem_of_nil in Hin.
  - simpl. destruct (decide (y = x)) as [->|Hne]; [by eexists|].
    apply elem_of_cons in Hin as [->|Hin]; [done|].
    destruct (IH Hin) as [t' ->]. by eexists.
Qed.

Lemma list_remove_None x l : list_remove x l = None -> x ∉ l.
Proof.
  intros H Hin. destruct (list_remove_elem x l Hin) as [l' Hl']. congruence.
Qed.

Lemma list_remove_Some x l l' :
  list_remove x l = Some l' ->
  exists l1 l2, l = l1 ++ x :: l2 /\ l' = l1 ++ l2 /\ x ∉ l1.
Proof.
  revert l'. induction l as [|y t IH]; intros l' H; simpl in H; [done|].
  destruct (decide (y = x)) as [->|Hne].
  - inversion H; subst. exists [], l'. split_and!; [done..|]. apply not_elem_of_nil.
  - destruct (list_remove x t) as [t'|] eqn:Ht; [|done].
    inversion H; subst. destruct (IH t' eq_refl) as (l1 & l2 & -> & -> & Hn).
    exists (y :: l1), l2. split_and!; [done..|].
    intros [->|?]%elem_of_cons; [done|]. by apply Hn.
Qed.

Lemma list_remove_app_last x l : x ∉ l -> list_remove x (l ++ [x]) = Some l.
Proof.
  induction l as [|y t IH]; intros Hn; simpl.
  - by rewrite decide_True.
  - apply not_elem_of_cons in Hn as [Hne Hn].
    rewrite decide_False; [|done]. by rewrite IH.
Qed.

Lemma list_remove_subseteq x l l' : list_remove x l = Some l' -> l' ⊆ l.
Proof.
  intros (l1 & l2 & -> & -> & _)%list_remove_Some y.
  rewrite !elem_of_app, elem_of_cons. tauto.
Qed.

Lemma list_remove_length x l l' :
  list_remove x l = Some l' -> length l = S (length l').
Proof.
  intros (l1 & l2 & -> & -> & _)%list_remove_Some.
  rewrite !length_app. simpl. lia.
Qed.

Lemma list_remove_NoDup x l l' :
  list_remove x l = Some l' -> NoDup l -> NoDup l' /\ x ∉ l'.
Proof.
  intros (l1 & l2 & -> & -> & Hn)%list_remove_Some Hnd.
  apply NoDup_app in Hnd as (H1 & H12 & H2).
  apply NoDup_cons in H2 as [Hx H2]. split.
  - apply NoDup_app. split_and!; [done| |done].
    intros y Hy Hy2. apply (H12 y Hy). by right.
  - rewrite elem_of_app. tauto.
Qed.

Lemma bind_Ok {A B} (c : Py A) (k : A -> Py B) s a s' :
  c s = Ok a s' -> bind c k s = k a s'.
Proof. intros H. unfold bind. by rewrite H. Qed.

Lemma bind_Raise {A B} (c : Py A) (k : A -> Py B) s f s' :
  c s = Raise f s' -> bind c k s = Raise f s'.
Proof. intros H. unfold bind. by rewrite H. Qed.

Lemma bind_Ok_inv {A B} (c : Py A) (k : A -> Py B) s b s'' :
  bind c k s = Ok b s'' -> exists a s', c s = Ok a s' /\ k a s' = Ok b s''.
Proof. unfold bind. destruct (c s) as [a s'|f s']; [eauto|done]. Qed.

(** The limit is on the digits, the sign apart: 4300 digits are
    converted, 4301 are not. *)
Example str_ok_limit :
  decimal_digits 0 = 1 /\ decimal_digits (-120) = 3 /\
  str_ok (long_id - 1) = true /\ str_ok long_id = false /\
  str_ok (- (long_id - 1)) = true /\ str_ok (- long_id) = false.
Proof. split_and!; vm_compute; reflexivity. Qed.

Lemma str_int_eq z s :
  str_int z s = if str_ok z then Ok (pretty z) s else Raise ValueError s.
Proof. done. Qed.

(** What the end of a method that refuses computes: the message with
    the integer [z], then [return False]. *)
Lemma refuse_eq z s : (_ <- str_int z ;; ret false) s = refused z s.
Proof. unfold bind, str_int, refused, ret. by destruct (str_ok z). Qed.

Lemma refused_Ok z s r s' :
  refused z s = Ok r s' -> r = false /\ s' = s /\ str_ok z = true.
Proof. unfold refused. destruct (str_ok z); [|done]. by intros [= <- <-]. Qed.

Lemma refused_Raise z s f s' :
  refused z s = Raise f s' -> f = ValueError /\ s' = s /\ str_ok z = false.
Proof. unfold refused. destruct (str_ok z); [done|]. by intros [= <- <-]. Qed.

Lemma refused_ok z s : str_ok z = true -> refused z s = Ok false s.
Proof. unfold refused. by intros ->. Qed.

Lemma refused_long z s : str_ok z = false -> refused z s = Raise ValueError s.
Proof. unfold refused. by intros ->. Qed.

Lemma assign_is_available_eq s r bk v :
  book_heap s !! r = Some bk ->
  assign_is_available r v s = Ok tt (put_book r (Book.set_is_available v bk) s).
Proof.
  intros H. unfold assign_is_available, put_book. unfold_py. by rewrite !H.
Qed.

Lemma borrowed_books_append_eq s r mem b :
  member_heap s !! r = Some mem ->
  borrowed_books_append r b s =
    Ok tt (put_member r
      (Member.set_borrowed_books (Member.borrowed_books mem ++ [b]) mem) s).
Proof.
  intros H. unfold borrowed_books_append, put_member. unfold_py.
  by rewrite !H.
Qed.

Lemma borrowed_books_remove_eq s r mem b rest :
  member_heap s !! r = Some mem ->
  list_remove b (Member.borrowed_books mem) = Some rest ->
  borrowed_books_remove r b s =
    Ok tt (put_member r (Member.set_borrowed_books rest mem) s).
Proof.
  intros H Hr. unfold borrowed_books_remove, put_member. unfold_py.
  by rewrite !H, Hr, H.
Qed.

Lemma books_append_eq s r x b :
  library_heap s !! r = Some x ->
  books_append r b s =
    Ok tt (put_library r (Library.set_books (Library.books x ++ [b]) x) s).
Proof.
  intros H. unfold books_append, put_library. unfold_py. by rewrite !H.
Qed.

Lemma members_append_eq s r x m :
  library_heap s !! r = Some x ->
  members_append r m s =
    Ok tt (put_library r
      (Library.set_members (Library.members x ++ [m]) x) s).
Proof.
  intros H. unfold members_append, put_library. unfold_py. by rewrite !H.
Qed.

Lemma books_remove_eq s r x b rest :
  library_heap s !! r = Some x ->
  list_remove b (Library.books x) = Some rest ->
  books_remove r b s = Ok tt (put_library r (Library.set_books rest x) s).
Proof.
  intros H Hr. unfold books_remove, put_library. unfold_py.
  by rewrite !H, Hr, H.
Qed.

Create HintDb py discriminated.
#[local] Hint Resolve read_book_eq read_member_eq read_library_eq
  assign_is_available_eq borrowed_books_append_eq borrowed_books_remove_eq
  books_append_eq members_append_eq books_remove_eq : py.

(** Runs the first call of a sequence whose outcome is known. *)
Ltac py_step := erewrite bind_Ok by (simpl; eauto with py).

(** ** What [borrow_book] computes *)

Lemma borrow_book_eq s self book mem bk :
  member_heap s !! self = Some mem ->
  book_heap s !! book = Some bk ->
  borrow_book self book s =
    if at_limit mem then Ok false s
    else if Book.is_available bk then Ok true (lend self book mem bk s)
    else Ok false s.
Proof.
  intros Hm Hb.
  unfold borrow_book, at_limit, max_borrow, lend.
  py_step.
  destruct (Member.cls mem);
    unfold Member_borrow_book, StudentMember_borrow_book,
      FacultyMember_borrow_book.
  - py_step. destruct (Book.is_available bk); simpl; [|done].
    by do 2 py_step.
  - py_step. case_match; [done|].
    py_step. destruct (Book.is_available bk); simpl; [|done].
    by do 2 py_step.
  - py_step. case_match; [done|].
    py_step. destruct (Book.is_available bk); simpl; [|done].
    by do 2 py_step.
Qed.

(** A member at its limit is refused before the book is looked at. *)
Lemma borrow_book_at_limit s self book mem :
  member_heap s !! self = Some mem ->
  at_limit mem = true ->
  borrow_book self book s = Ok false s.
Proof.
  intros Hm. unfold borrow_book, at_limit, max_borrow.
  py_step.
  destruct (Member.cls mem); intros Hl; [done|..];
    unfold StudentMember_borrow_book, FacultyMember_borrow_book;
    py_step; by rewrite Hl.
Qed.

(** ** The search loops *)

Lemma refs_ok_lookup {A} (heap : list A) l r :
  refs_ok (length heap) l -> r ∈ l -> is_Some (heap !! r).
Proof.
  unfold refs_ok. rewrite Forall_forall. intros H Hin.
  apply lookup_lt_is_Some. by apply H.
Qed.

Lemma refs_ok_cons n r l : refs_ok n (r :: l) <-> r < n /\ refs_ok n l.
Proof. unfold refs_ok. by rewrite Forall_cons. Qed.

Lemma refs_ok_singleton n r : r < n -> refs_ok n [r].
Proof. intros H. apply refs_ok_cons. split; [done|constructor]. Qed.

Lemma refs_ok_app n l1 l2 :
  refs_ok n (l1 ++ l2) <-> refs_ok n l1 /\ refs_ok n l2.
Proof. apply Forall_app. Qed.

Lemma refs_ok_mono n n' l : n <= n' -> refs_ok n l -> refs_ok n' l.
Proof.
  unfold refs_ok. rewrite !Forall_forall. intros Hle H r Hr.
  specialize (H r Hr). lia.
Qed.

Lemma refs_ok_subseteq n l l' : l' ⊆ l -> refs_ok n l -> refs_ok n l'.
Proof.
  unfold refs_ok. rewrite !Forall_forall. intros Hsub H r Hr.
  apply H. by apply Hsub.
Qed.

Lemma first_ref_cons {A} (heap : list A) p r l :
  first_ref heap p (r :: l) =
    match heap !! r with
    | Some x => if p x then Some r else first_ref heap p l
    | None => first_ref heap p l
    end.
Proof. unfold first_ref. simpl. by destruct (heap !! r). Qed.

Lemma first_ref_Some {A} (heap : list A) p l r :
  first_ref heap p l = Some r ->
  exists x l1 l2, l = l1 ++ r :: l2 /\ heap !! r = Some x /\ p x = true /\
    forall r' x', r' ∈ l1 -> heap !! r' = Some x' -> p x' = false.
Proof.
  induction l as [|r0 l IH]; [done|].
  rewrite first_ref_cons. destruct (heap !! r0) as [x0|] eqn:H0.
  - destruct (p x0) eqn:Hp.
    + intros [= <-]. exists x0, [], l. split_and!; [done..|].
      intros r' x' Hin. by apply elem_of_nil in Hin.
    + intros (x & l1 & l2 & -> & Hx & Hpx & Hl1)%IH.
      exists x, (r0 :: l1), l2. split_and!; [done..|].
      intros r' x' [->|Hin]%elem_of_cons Hr'; [congruence|eauto].
  - intros (x & l1 & l2 & -> & Hx & Hpx & Hl1)%IH.
    exists x, (r0 :: l1), l2. split_and!; [done..|].
    intros r' x' [->|Hin]%elem_of_cons Hr'; [congruence|eauto].
Qed.

Lemma first_ref_elem {A} (heap : list A) p l r :
  first_ref heap p l = Some r -> r ∈ l.
Proof.
  intros (x & l1 & l2 & -> & _)%first_ref_Some.
  rewrite elem_of_app, elem_of_cons. tauto.
Qed.

Lemma first_ref_None {A} (heap : list A) p l :
  first_ref heap p l = None <->
  forall r x, r ∈ l -> heap !! r = Some x -> p x = false.
Proof.
  induction l as [|r0 l IH].
  - split; [|done]. intros _ r x Hin. by apply elem_of_nil in Hin.
  - rewrite first_ref_cons. split.
    + intros H r x [->|Hin]%elem_of_cons Hr.
      * rewrite Hr in H. by destruct (p x).
      * destruct (heap !! r0) as [x0|]; [destruct (p x0); [done|]|];
          eapply (proj1 IH H); eauto.
    + intros H. destruct (heap !! r0) as [x0|] eqn:H0.
      * rewrite (H r0 x0); [|by left|done]. apply IH.
        intros r x Hin. apply H. by right.
      * apply IH. intros r x Hin. apply H. by right.
Qed.

(** A search that only reads: its outcome is the first match, and the
    store is the one it started from. *)
Lemma find_book_loop_eq s bs book_id :
  refs_ok (length (book_heap s)) bs ->
  find_book_loop bs book_id s =
    Ok (first_ref (book_heap s) (has_book_id book_id) bs) s.
Proof.
  induction bs as [|b rest IH]; [done|].
  intros [Hb Hrest]%refs_ok_cons.
  apply lookup_lt_is_Some in Hb as [bk Hbk].
  rewrite first_ref_cons, Hbk. simpl. py_step.
  unfold has_book_id. destruct (_ =? _)%Z; [done|]. by apply IH.
Qed.

Lemma get_member_loop_eq s ms member_id :
  refs_ok (length (member_heap s)) ms ->
  get_member_loop ms member_id s =
    Ok (first_ref (member_heap s) (has_member_id member_id) ms) s.
Proof.
  induction ms as [|m rest IH]; [done|].
  intros [Hm Hrest]%refs_ok_cons.
  apply lookup_lt_is_Some in Hm as [mem Hmem].
  rewrite first_ref_cons, Hmem. simpl. py_step.
  unfold has_member_id. destruct (_ =? _)%Z; [done|]. by apply IH.
Qed.

Lemma return_book_loop_eq s self mem bs book_id :
  member_heap s !! self = Some mem ->
  refs_ok (length (book_heap s)) bs ->
  bs ⊆ Member.borrowed_books mem ->
  return_book_loop self bs book_id s =
    match first_ref (book_heap s) (has_book_id book_id) bs with
    | None => refused book_id s
    | Some b =>
        match book_heap s !! b, list_remove b (Member.borrowed_books mem) with
        | Some bk, Some rest => Ok true (give_back self b mem bk rest s)
        | _, _ => Raise Dangling s
        end
    end.
Proof.
  intros Hmem. induction bs as [|b rest IH]; [intros _ _; apply refuse_eq|].
  intros [Hb Hrest]%refs_ok_cons Hsub.
  apply lookup_lt_is_Some in Hb as [bk Hbk].
  rewrite first_ref_cons, Hbk. simpl. py_step.
  unfold has_book_id. destruct (_ =? _)%Z.
  - rewrite Hbk.
    destruct (list_remove_elem b (Member.borrowed_books mem)) as [l Hl].
    { apply Hsub. by left. }
    rewrite Hl. by do 2 py_step.
  - apply IH; [done|]. intros r Hr. apply Hsub. by right.
Qed.

Lemma remove_book_loop_eq s self x bs book_id :
  library_heap s !! self = Some x ->
  refs_ok (length (book_heap s)) bs ->
  bs ⊆ Library.books x ->
  remove_book_loop self bs book_id s =
    match first_ref (book_heap s) (removable book_id) bs with
    | None => refused book_id s
    | Some b =>
        match list_remove b (Library.books x) with
        | Some rest => Ok true (put_library self (Library.set_books rest x) s)
        | None => Raise ValueError s
        end
    end.
Proof.
  intros Hx. induction bs as [|b rest IH]; [intros _ _; apply refuse_eq|].
  intros [Hb Hrest]%refs_ok_cons Hsub.
  apply lookup_lt_is_Some in Hb as [bk Hbk].
  rewrite first_ref_cons, Hbk. simpl. py_step.
  unfold removable. destruct (_ && _).
  - destruct (list_remove_elem b (Library.books x)) as [l Hl].
    { apply Hsub. by left. }
    rewrite Hl. by py_step.
  - apply IH; [done|]. intros r Hr. apply Hsub. by right.
Qed.

(** ** What the methods of [Library] and [Member.return_book] compute *)

Lemma Member_return_book_eq s self mem book_id :
  wf s ->
  member_heap s !! self = Some mem ->
  Member_return_book self book_id s =
    match first_ref (book_heap s) (has_book_id book_id)
            (Member.borrowed_books mem) with
    | None => refused book_id s
    | Some b =>
        match book_heap s !! b, list_remove b (Member.borrowed_books mem) with
        | Some bk, Some rest => Ok true (give_back self b mem bk rest s)
        | _, _ => Raise Dangling s
        end
    end.
Proof.
  intros Hwf Hmem. unfold Member_return_book. py_step.
  apply return_book_loop_eq; [done| |done]. by eapply wf_borrowed.
Qed.

Lemma Library_find_book_eq s self x book_id :
  wf s ->
  library_heap s !! self = Some x ->
  Library_find_book self book_id s =
    Ok (first_ref (book_heap s) (has_book_id book_id) (Library.books x)) s.
Proof.
  intros Hwf Hx. unfold Library_find_book. py_step.
  apply find_book_loop_eq. by eapply wf_books.
Qed.

Lemma Library_get_member_by_id_eq s self x member_id :
  wf s ->
  library_heap s !! self = Some x ->
  Library_get_member_by_id self member_id s =
    Ok (first_ref (member_heap s) (has_member_id member_id)
          (Library.members x)) s.
Proof.
  intros Hwf Hx. unfold Library_get_member_by_id. py_step.
  apply get_member_loop_eq. by eapply wf_members.
Qed.

Lemma Library_remove_book_eq s self x book_id :
  wf s ->
  library_heap s !! self = Some x ->
  Library_remove_book self book_id s =
    match first_ref (book_heap s) (removable book_id) (Library.books x) with
    | None => refused book_id s
    | Some b =>
        match list_remove b (Library.books x) with
        | Some rest => Ok true (put_library self (Library.set_books rest x) s)
        | None => Raise ValueError s
        end
    end.
Proof.
  intros Hwf Hx. unfold Library_remove_book. py_step.
  apply remove_book_loop_eq; [done| |done]. by eapply wf_books.
Qed.

Lemma Library_add_book_eq s self x book :
  library_heap s !! self = Some x ->
  book < length (book_heap s) ->
  Library_add_book self book s =
    Ok tt (put_library self
             (Library.set_books (Library.books x ++ [book]) x) s).
Proof.
  intros Hx [bk Hbk]%lookup_lt_is_Some. unfold Library_add_book.
  by do 2 py_step.
Qed.

Lemma Library_add_member_eq s self x member mem :
  library_heap s !! self = Some x ->
  member_heap s !! member = Some mem ->
  Library_add_member self member s =
    if str_ok (Member.member_id mem)
    then Ok tt (put_library self
                  (Library.set_members (Library.members x ++ [member]) x) s)
    else Raise ValueError
           (put_library self
              (Library.set_members (Library.members x ++ [member]) x) s).
Proof.
  intros Hx Hmem. unfold Library_add_member.
  do 2 py_step. unfold bind, str_int, ret, Member.get_member_id.
  by destruct (str_ok _).
Qed.

Lemma Library_borrow_eq s self x member_id book_id :
  wf s ->
  library_heap s !! self = Some x ->
  Library_borrow self member_id book_id s =
    match first_ref (member_heap s) (has_member_id member_id)
            (Library.members x),
          first_ref (book_heap s) (has_book_id book_id) (Library.books x) with
    | Some m, Some b => borrow_book m b s
    | Some m, None => refused book_id s
    | None, _ => refused member_id s
    end.
Proof.
  intros Hwf Hx. unfold Library_borrow.
  erewrite bind_Ok by by apply Library_get_member_by_id_eq.
  erewrite bind_Ok by by apply Library_find_book_eq.
  repeat case_match; try done; apply refuse_eq.
Qed.

Lemma Library_return_book_eq s self x member_id book_id :
  wf s ->
  library_heap s !! self = Some x ->
  Library_return_book self member_id book_id s =
    match first_ref (member_heap s) (has_member_id member_id)
            (Library.members x) with
    | Some m => Member_return_book m book_id s
    | None => refused member_id s
    end.
Proof.
  intros Hwf Hx. unfold Library_return_book.
  erewrite bind_Ok by by apply Library_get_member_by_id_eq.
  case_match; [done|apply refuse_eq].
Qed.

(** ** The merge loops *)

Lemma set_books_same x : Library.set_books (Library.books x) x = x.
Proof. by destruct x. Qed.

Lemma set_members_same x : Library.set_members (Library.members x) x = x.
Proof. by destruct x. Qed.

Lemma put_library_same r x s :
  library_heap s !! r = Some x -> put_library r x s = s.
Proof.
  intros H. unfold put_library. rewrite list_insert_id; [|done].
  by destruct s.
Qed.

Lemma put_library_twice r x y s :
  put_library r y (put_library r x s) = put_library r y s.
Proof. unfold put_library. simpl. by rewrite list_insert_insert_eq. Qed.

Lemma put_library_lookup r x s :
  r < length (library_heap s) ->
  library_heap (put_library r x s) !! r = Some x.
Proof. intros H. simpl. by apply list_lookup_insert_eq. Qed.

Lemma merge_books_loop_eq s merged x bs seen :
  library_heap s !! merged = Some x ->
  refs_ok (length (book_heap s)) bs ->
  merge_books_loop merged bs seen s =
    Ok tt (put_library merged
             (Library.set_books
                (Library.books x ++ merge_loop_result (book_id_of s) bs seen)
                x) s).
Proof.
  revert s x seen. induction bs as [|b rest IH]; intros s x seen Hx Hok.
  - simpl. by rewrite app_nil_r, set_books_same, put_library_same.
  - apply refs_ok_cons in Hok as [Hb Hrest].
    apply lookup_lt_is_Some in Hb as [bk Hbk].
    assert (Hid : book_id_of s b = Book.get_book_id bk).
    { unfold book_id_of. by rewrite Hbk. }
    simpl. py_step. rewrite Hid.
    case_bool_decide; [|by apply IH].
    py_step. erewrite IH; [|apply put_library_lookup; by eapply lookup_lt_Some|done].
    rewrite put_library_twice. simpl. by rewrite <-app_assoc.
Qed.

Lemma merge_members_loop_eq s merged x ms seen :
  library_heap s !! merged = Some x ->
  refs_ok (length (member_heap s)) ms ->
  merge_members_loop merged ms seen s =
    Ok tt (put_library merged
             (Library.set_members
                (Library.members x ++
                   merge_loop_result (member_id_of s) ms seen)
                x) s).
Proof.
  revert s x seen. induction ms as [|m rest IH]; intros s x seen Hx Hok.
  - simpl. by rewrite app_nil_r, set_members_same, put_library_same.
  - apply refs_ok_cons in Hok as [Hm Hrest].
    apply lookup_lt_is_Some in Hm as [mem Hmem].
    assert (Hid : member_id_of s m = Member.get_member_id mem).
    { unfold member_id_of. by rewrite Hmem. }
    simpl. py_step. rewrite Hid.
    case_bool_decide; [|by apply IH].
    py_step. erewrite IH; [|apply put_library_lookup; by eapply lookup_lt_Some|done].
    rewrite put_library_twice. simpl. by rewrite <-app_assoc.
Qed.

Lemma merge_loop_result_filter key rs seen :
  merge_loop_result key rs seen =
    filter (fun r => key r ∉ seen) (keep_first key rs).
Proof.
  revert seen. induction rs as [|r rest IH]; intros seen; [done|].
  simpl. case_bool_decide as Hr.
  - rewrite filter_cons_True by done. f_equal.
    rewrite IH, list_filter_filter. apply list_filter_iff.
    intros r'. rewrite not_elem_of_union, not_elem_of_singleton. tauto.
  - rewrite filter_cons_False by (intros H; apply H, Hr).
    rewrite IH, list_filter_filter. apply list_filter_iff.
    intros r'. split; [|tauto]. intros H. split; [done|].
    intros Heq. rewrite Heq in H. done.
Qed.

(** The loop with its set of seen identifiers computes the
    specification's deduplication. *)
Lemma merge_loop_result_keep_first key rs :
  merge_loop_result key rs ∅ = keep_first key rs.
Proof.
  rewrite merge_loop_result_filter.
  induction (keep_first key rs) as [|r l IH]; [done|].
  rewrite filter_cons_True by apply not_elem_of_empty. by rewrite IH.
Qed.

Lemma keep_first_sublist key l : keep_first key l `sublist_of` l.
Proof.
  induction l as [|r rest IH]; [done|]. simpl.
  apply sublist_skip. etrans; [apply sublist_filter|done].
Qed.

Lemma keep_first_subseteq key l : keep_first key l ⊆ l.
Proof. apply sublist_subseteq, keep_first_sublist. Qed.



(** No identifier survives twice. *)
Lemma keep_first_NoDup key l : NoDup (key <$> keep_first key l).
Proof.
  induction l as [|r rest IH]; simpl; [constructor|].
  apply NoDup_cons. split.
  - intros (r' & Heq & [Hne _]%list_elem_of_filter)%list_elem_of_fmap. done.
  - eapply sublist_NoDup; [exact IH|]. apply fmap_sublist, sublist_filter.
Qed.







Lemma Library___add___eq s self other a o :
  wf s ->
  library_heap s !! self = Some a ->
  library_heap s !! other = Some o ->
  Library___add__ self other s =
    Ok (length (library_heap s))
       (mkStore (book_heap s) (member_heap s)
          (library_heap s ++ [merged_library s a o])).
Proof.
  intros Hwf Ha Ho. unfold Library___add__. do 2 py_step.
  unfold Library___init__.
  set (x0 := Library.mk (Library.name a ++ " & " ++ Library.name o) [] []).
  set (s1 := mkStore (book_heap s) (member_heap s) (library_heap s ++ [x0])).
  erewrite (bind_Ok (alloc_library x0)) by reflexivity. fold s1.
  assert (library_heap s1 !! self = Some a) as Ha1.
  { by apply lookup_app_l_Some. }
  assert (library_heap s1 !! other = Some o) as Ho1.
  { by apply lookup_app_l_Some. }
  assert (library_heap s1 !! length (library_heap s) = Some x0) as Hx1.
  { apply list_lookup_middle. done. }
  assert (refs_ok (length (book_heap s1)) (Library.books a ++ Library.books o)).
  { apply refs_ok_app. split; by eapply (wf_books s). }
  assert (refs_ok (length (member_heap s1))
            (Library.members a ++ Library.members o)).
  { apply refs_ok_app. split; by eapply (wf_members s). }
  do 2 py_step.
  erewrite bind_Ok by by apply merge_books_loop_eq.
  set (x1 := Library.set_books _ x0).
  assert (forall x, library_heap (put_library (length (library_heap s)) x s1)
            = library_heap s ++ [x]) as Hput.
  { intros x. simpl. rewrite insert_app_r_alt by done.
    by rewrite Nat.sub_diag. }
  assert (forall x r, library_heap s !! r = Some a ->
     library_heap (put_library (length (library_heap s)) x s1) !! r = Some a)
    as Hsame.
  { intros x r Hr. rewrite Hput. by apply lookup_app_l_Some. }
  assert (forall x r, library_heap s !! r = Some o ->
     library_heap (put_library (length (library_heap s)) x s1) !! r = Some o)
    as Hsame'.
  { intros x r Hr. rewrite Hput. by apply lookup_app_l_Some. }
  do 2 py_step.
  erewrite bind_Ok.
  2:{ apply merge_members_loop_eq with (x := x1); [|done].
      apply put_library_lookup. by eapply lookup_lt_Some. }
  unfold ret. f_equal. rewrite put_library_twice.
  unfold put_library, x1, x0, s1. cbn [book_heap member_heap library_heap].
  rewrite insert_app_r_alt by done. rewrite Nat.sub_diag.
  rewrite !merge_loop_result_keep_first. reflexivity.
Qed.

(** ** Every completed call, read backwards *)

Lemma read_member_inv s r mem s' :
  read_member r s = Ok mem s' -> member_heap s !! r = Some mem /\ s' = s.
Proof.
  unfold read_member. destruct (member_heap s !! r); [|done].
  by intros [= -> ->].
Qed.

Lemma read_book_inv s r bk s' :
  read_book r s = Ok bk s' -> book_heap s !! r = Some bk /\ s' = s.
Proof.
  unfold read_book. destruct (book_heap s !! r); [|done].
  by intros [= -> ->].
Qed.

Lemma read_library_inv s r x s' :
  read_library r s = Ok x s' -> library_heap s !! r = Some x /\ s' = s.
Proof.
  unfold read_library. destruct (library_heap s !! r); [|done].
  by intros [= -> ->].
Qed.

Lemma borrow_book_inv s self book r s' :
  borrow_book self book s = Ok r s' ->
  exists mem, member_heap s !! self = Some mem /\
    ((r = false /\ s' = s) \/
     (exists bk, book_heap s !! book = Some bk /\ at_limit mem = false /\
        Book.is_available bk = true /\ r = true /\
        s' = lend self book mem bk s)).
Proof.
  intros H.
  destruct (member_heap s !! self) as [mem|] eqn:Hm.
  2:{ unfold borrow_book in H. apply bind_Ok_inv in H as (? & ? & H & _).
      apply read_member_inv in H as [? _]. congruence. }
  exists mem. split; [done|].
  destruct (at_limit mem) eqn:Hl.
  { rewrite (borrow_book_at_limit s self book mem Hm Hl) in H.
    left. by inversion H. }
  destruct (book_heap s !! book) as [bk|] eqn:Hb.
  - rewrite (borrow_book_eq s self book mem bk Hm Hb), Hl in H.
    destruct (Book.is_available bk) eqn:Ha; inversion H; subst; [|by left].
    right. by exists bk.
  - exfalso. unfold borrow_book, at_limit, max_borrow in *.
    rewrite (bind_Ok _ _ _ _ _ (read_member_eq _ _ _ Hm)) in H.
    destruct (Member.cls mem);
      unfold Member_borrow_book, StudentMember_borrow_book,
        FacultyMember_borrow_book in H;
      rewrite ?(bind_Ok _ _ _ _ _ (read_member_eq _ _ _ Hm)) in H;
      rewrite ?Hl in H;
      apply bind_Ok_inv in H as (? & ? & H & _);
      apply read_book_inv in H as [? _]; congruence.
Qed.

Lemma Member_return_book_inv s self book_id r s' :
  wf s ->
  Member_return_book self book_id s = Ok r s' ->
  exists mem, member_heap s !! self = Some mem /\
    ((r = false /\ s' = s /\
      first_ref (book_heap s) (has_book_id book_id)
        (Member.borrowed_books mem) = None) \/
     (exists b bk rest,
        first_ref (book_heap s) (has_book_id book_id)
          (Member.borrowed_books mem) = Some b /\
        book_heap s !! b = Some bk /\
        list_remove b (Member.borrowed_books mem) = Some rest /\
        r = true /\ s' = give_back self b mem bk rest s)).
Proof.
  intros Hwf H.
  destruct (member_heap s !! self) as [mem|] eqn:Hm.
  2:{ unfold Member_return_book in H.
      apply bind_Ok_inv in H as (? & ? & H & _).
      apply read_member_inv in H as [? _]. congruence. }
  exists mem. split; [done|].
  rewrite (Member_return_book_eq s self mem book_id Hwf Hm) in H.
  destruct (first_ref _ _ _) as [b|] eqn:Hf.
  - destruct (book_heap s !! b) as [bk|] eqn:Hb; [|done].
    destruct (list_remove _ _) as [rest|] eqn:Hr; [|done].
    inversion H; subst. right. by exists b, bk, rest.
  - apply refused_Ok in H as (-> & -> & _). by left.
Qed.

Lemma library_call_inv {A} (k : Library.t -> Py A) s self r s' :
  (x <- read_library self ;; k x) s = Ok r s' ->
  exists x, library_heap s !! self = Some x.
Proof.
  intros (x & ? & [H _]%read_library_inv & _)%bind_Ok_inv. by exists x.
Qed.

Lemma Library_remove_book_inv s self book_id r s' :
  wf s ->
  Library_remove_book self book_id s = Ok r s' ->
  exists x, library_heap s !! self = Some x /\
    ((r = false /\ s' = s /\
      first_ref (book_heap s) (removable book_id) (Library.books x) = None) \/
     (exists b rest,
        first_ref (book_heap s) (removable book_id) (Library.books x)
          = Some b /\
        list_remove b (Library.books x) = Some rest /\
        r = true /\ s' = put_library self (Library.set_books rest x) s)).
Proof.
  intros Hwf H. destruct (library_call_inv _ _ _ _ _ H) as [x Hx].
  exists x. split; [done|].
  rewrite (Library_remove_book_eq s self x book_id Hwf Hx) in H.
  destruct (first_ref _ _ _) as [b|] eqn:Hf.
  - destruct (list_remove _ _) as [rest|] eqn:Hr; [|done].
    inversion H; subst. right. by exists b, rest.
  - apply refused_Ok in H as (-> & -> & _). by left.
Qed.

Lemma Library_add_book_inv s self book r s' :
  Library_add_book self book s = Ok r s' ->
  exists x, library_heap s !! self = Some x /\
    book < length (book_heap s) /\
    s' = put_library self
           (Library.set_books (Library.books x ++ [book]) x) s.
Proof.
  intros H. unfold Library_add_book in H.
  pose proof H as (u & s1 & H1 & H2)%bind_Ok_inv.
  destruct (library_call_inv _ _ _ _ _ H1) as [x Hx].
  exists x. split; [done|].
  rewrite (books_append_eq _ _ _ _ Hx) in H1. inversion H1; subst.
  apply bind_Ok_inv in H2 as (bk & s2 & [Hb ->]%read_book_inv & H2).
  inversion H2; subst. split; [|done]. by eapply lookup_lt_Some.
Qed.

Lemma Library_add_member_inv s self member r s' :
  Library_add_member self member s = Ok r s' ->
  exists x, library_heap s !! self = Some x /\
    member < length (member_heap s) /\
    s' = put_library self
           (Library.set_members (Library.members x ++ [member]) x) s.
Proof.
  intros H. unfold Library_add_member in H.
  pose proof H as (u & s1 & H1 & H2)%bind_Ok_inv.
  destruct (library_call_inv _ _ _ _ _ H1) as [x Hx].
  exists x. split; [done|].
  rewrite (members_append_eq _ _ _ _ Hx) in H1. inversion H1; subst.
  apply bind_Ok_inv in H2 as (mem & s2 & [Hb ->]%read_member_inv & H2).
  apply bind_Ok_inv in H2 as (t & s3 & H2 & H3).
  rewrite str_int_eq in H2. destruct (str_ok _); [|done].
  inversion H2; subst. inversion H3; subst.
  split; [|done]. by eapply lookup_lt_Some.
Qed.

Lemma Library___add___inv s self other r s' :
  wf s ->
  Library___add__ self other s = Ok r s' ->
  exists a o, library_heap s !! self = Some a /\
    library_heap s !! other = Some o /\
    r = length (library_heap s) /\
    s' = mkStore (book_heap s) (member_heap s)
           (library_heap s ++ [merged_library s a o]).
Proof.
  intros Hwf H. destruct (library_call_inv _ _ _ _ _ H) as [a Ha].
  pose proof H as H'. unfold Library___add__ in H'.
  rewrite (bind_Ok _ _ _ _ _ (read_library_eq _ _ _ Ha)) in H'.
  destruct (library_call_inv _ _ _ _ _ H') as [o Ho].
  rewrite (Library___add___eq s self other a o Hwf Ha Ho) in H.
  inversion H; subst. by exists a, o.
Qed.

Lemma Library_get_member_by_id_inv s self member_id r s' :
  wf s ->
  Library_get_member_by_id self member_id s = Ok r s' ->
  exists x, library_heap s !! self = Some x /\ s' = s /\
    r = first_ref (member_heap s) (has_member_id member_id)
          (Library.members x).
Proof.
  intros Hwf H. destruct (library_call_inv _ _ _ _ _ H) as [x Hx].
  rewrite (Library_get_member_by_id_eq s self x member_id Hwf Hx) in H.
  inversion H; subst. by exists x.
Qed.

Lemma Library_find_book_inv s self book_id r s' :
  wf s ->
  Library_find_book self book_id s = Ok r s' ->
  exists x, library_heap s !! self = Some x /\ s' = s /\
    r = first_ref (book_heap s) (has_book_id book_id) (Library.books x).
Proof.
  intros Hwf H. destruct (library_call_inv _ _ _ _ _ H) as [x Hx].
  rewrite (Library_find_book_eq s self x book_id Hwf Hx) in H.
  inversion H; subst. by exists x.
Qed.

Lemma Library_borrow_inv s self member_id book_id r s' :
  wf s ->
  Library_borrow self member_id book_id s = Ok r s' ->
  exists x, library_heap s !! self = Some x /\
    match first_ref (member_heap s) (has_member_id member_id)
            (Library.members x),
          first_ref (book_heap s) (has_book_id book_id) (Library.books x) with
    | Some m, Some b => borrow_book m b s = Ok r s'
    | _, _ => r = false /\ s' = s
    end.
Proof.
  intros Hwf H. pose proof H as H'. unfold Library_borrow in H'.
  apply bind_Ok_inv in H' as (om & s1 & H' & _).
  apply Library_get_member_by_id_inv in H' as (x & Hx & _); [|done].
  exists x. split; [done|].
  rewrite (Library_borrow_eq s self x member_id book_id Hwf Hx) in H.
  repeat case_match; try done; by apply refused_Ok in H as (-> & -> & _).
Qed.

Lemma Library_return_book_inv s self member_id book_id r s' :
  wf s ->
  Library_return_book self member_id book_id s = Ok r s' ->
  exists x, library_heap s !! self = Some x /\
    match first_ref (member_heap s) (has_member_id member_id)
            (Library.members x) with
    | Some m => Member_return_book m book_id s = Ok r s'
    | None => r = false /\ s' = s
    end.
Proof.
  intros Hwf H. pose proof H as H'. unfold Library_return_book in H'.
  apply bind_Ok_inv in H' as (om & s1 & H' & _).
  apply Library_get_member_by_id_inv in H' as (x & Hx & _); [|done].
  exists x. split; [done|].
  rewrite (Library_return_book_eq s self x member_id book_id Hwf Hx) in H.
  case_match; [done|]. by apply refused_Ok in H as (-> & -> & _).
Qed.

(** The display methods only read, also when they raise. *)
Lemma Book___str___reads s b :
  match Book___str__ b s with Ok _ s' | Raise _ s' => s' = s end.
Proof.
  unfold Book___str__, bind, read_book, str_int, ret.
  destruct (book_heap s !! b); [|done]. by destruct (str_ok _).
Qed.

Lemma print_books_loop_reads s bs :
  match print_books_loop bs s with Ok _ s' | Raise _ s' => s' = s end.
Proof.
  induction bs as [|b rest IH]; [done|].
  cbn [print_books_loop]. unfold bind at 1.
  pose proof (Book___str___reads s b) as Hb.
  destruct (Book___str__ b s) as [t s1|f s1]; [subst s1|done].
  unfold bind, ret. by destruct (print_books_loop rest s).
Qed.

Lemma Member_list_borrowed_reads s m :
  match Member_list_borrowed m s with Ok _ s' | Raise _ s' => s' = s end.
Proof.
  unfold Member_list_borrowed, bind at 1, read_member.
  destruct (member_heap s !! m) as [mem|]; [|done].
  destruct (Member.borrowed_books mem) as [|b rest]; [done|].
  pose proof (print_books_loop_reads s (b :: rest)) as Hl.
  unfold bind, ret. by destruct (print_books_loop (b :: rest) s).
Qed.

Lemma Library_show_books_reads s lib :
  match Library_show_books lib s with Ok _ s' | Raise _ s' => s' = s end.
Proof.
  unfold Library_show_books, bind at 1, read_library.
  destruct (library_heap s !! lib) as [x|]; [|done].
  destruct (Library.books x) as [|b rest]; [done|].
  pose proof (print_books_loop_reads s (b :: rest)) as Hl.
  unfold bind, ret. by destruct (print_books_loop (b :: rest) s).
Qed.

(** ** The ways a call can change the store *)

Lemma libraries_ok_wf s : wf s -> libraries_ok s (library_heap s).
Proof. intros Hwf l x Hx. split; [by eapply wf_books|by eapply wf_members]. Qed.

Lemma libraries_ok_insert s lh l x :
  libraries_ok s lh ->
  refs_ok (length (book_heap s)) (Library.books x) ->
  refs_ok (length (member_heap s)) (Library.members x) ->
  libraries_ok s (<[l := x]> lh).
Proof.
  intros Hok Hb Hm l' x' Hl'.
  apply list_lookup_insert_Some in Hl' as [(-> & <- & _)|[_ Hl']]; [done|].
  by eapply Hok.
Qed.

Lemma libraries_ok_snoc s lh x :
  libraries_ok s lh ->
  refs_ok (length (book_heap s)) (Library.books x) ->
  refs_ok (length (member_heap s)) (Library.members x) ->
  libraries_ok s (lh ++ [x]).
Proof.
  intros Hok Hb Hm l' x' Hl'.
  apply lookup_snoc_Some in Hl' as [[_ Hl']|[_ <-]]; [by eapply Hok|done].
Qed.

Lemma borrow_book_effect s m b r s' :
  borrow_book m b s = Ok r s' -> effect s s'.
Proof.
  intros (mem & Hm & [[_ ->]|(bk & Hb & Hl & Ha & _ & ->)])%borrow_book_inv.
  - constructor.
  - by constructor.
Qed.

Lemma Member_return_book_effect s m i r s' :
  wf s -> Member_return_book m i s = Ok r s' -> effect s s'.
Proof.
  intros Hwf H. apply Member_return_book_inv in H
    as (mem & Hm & [(_ & -> & _)|(b & bk & rest & _ & Hb & Hr & _ & ->)]);
    [constructor|by constructor|done].
Qed.

Lemma exec_effect s op v s' : wf s -> exec op s = Ok v s' -> effect s s'.
Proof.
  intros Hwf H. destruct op; simpl in H;
    apply bind_Ok_inv in H as (r & s1 & H & Hret);
    inversion Hret; subst; clear Hret.
  - inversion H; subst. constructor.
  - inversion H; subst. constructor.
  - inversion H; subst. constructor.
    apply libraries_ok_snoc; [by apply libraries_ok_wf|constructor..].
  - by eapply borrow_book_effect.
  - by eapply Member_return_book_effect.
  - apply Library_add_book_inv in H as (x & Hx & Hb & ->).
    constructor. apply libraries_ok_insert; [by apply libraries_ok_wf| |].
    + simpl. apply refs_ok_app. split; [by eapply wf_books|].
      by apply refs_ok_singleton.
    + simpl. by eapply wf_members.
  - apply Library_remove_book_inv in H
      as (x & Hx & [(_ & -> & _)|(b0 & rest & _ & Hr & _ & ->)]); [| |done].
    + constructor.
    + constructor. apply libraries_ok_insert; [by apply libraries_ok_wf| |].
      * simpl. eapply refs_ok_subseteq; [by eapply list_remove_subseteq|].
        by eapply wf_books.
      * simpl. by eapply wf_members.
  - apply Library_find_book_inv in H as (x & _ & -> & _); [|done]. constructor.
  - apply Library_add_member_inv in H as (x & Hx & Hm & ->).
    constructor. apply libraries_ok_insert; [by apply libraries_ok_wf| |].
    + simpl. by eapply wf_books.
    + simpl. apply refs_ok_app. split; [by eapply wf_members|].
      by apply refs_ok_singleton.
  - apply Library_get_member_by_id_inv in H as (x & _ & -> & _); [|done].
    constructor.
  - apply Library_borrow_inv in H as (x & Hx & H); [|done].
    destruct (first_ref (member_heap s) _ _);
      [destruct (first_ref (book_heap s) _ _)|].
    + by eapply borrow_book_effect.
    + destruct H as [_ ->]. constructor.
    + destruct H as [_ ->]. constructor.
  - apply Library_return_book_inv in H as (x & Hx & H); [|done].
    case_match; [by eapply Member_return_book_effect|].
    destruct H as [_ ->]. constructor.
  - apply Library___add___inv in H as (a & o & Ha & Ho & _ & ->); [|done].
    constructor. apply libraries_ok_snoc; [by apply libraries_ok_wf| |].
    + simpl. eapply refs_ok_subseteq; [apply keep_first_subseteq|].
      apply refs_ok_app. split; by eapply wf_books.
    + simpl. eapply refs_ok_subseteq; [apply keep_first_subseteq|].
      apply refs_ok_app. split; by eapply wf_members.
  - pose proof (Book___str___reads s b) as Hs. rewrite H in Hs.
    subst. constructor.
  - pose proof (Member_list_borrowed_reads s m) as Hs. rewrite H in Hs.
    subst. constructor.
  - pose proof (Library_show_books_reads s lib) as Hs. rewrite H in Hs.
    subst. constructor.
  - apply read_member_inv in H as [_ ->]. constructor.
  - apply read_member_inv in H as [_ ->]. constructor.
  - apply read_book_inv in H as [_ ->]. constructor.
Qed.

(** ** Calls that raise *)

Lemma wrap_Raise_inv {A B} (c : Py A) (g : A -> B) s f s' :
  (x <- c ;; ret (g x)) s = Raise f s' -> c s = Raise f s'.
Proof.
  unfold bind, ret. destruct (c s) as [a s1|f1 s1]; [done|].
  by intros [= -> ->].
Qed.

Lemma long_or_short (l : list Z) :
  Forall (fun z => str_ok z = true) l \/
  Exists (fun z => str_ok z = false) l.
Proof.
  induction l as [|z l [IH|IH]].
  - left. constructor.
  - destruct (str_ok z) eqn:Hz.
    + left. by constructor.
    + right. by apply Exists_cons_hd.
  - right. by apply Exists_cons_tl.
Qed.

Lemma long_not_short (l : list Z) :
  Forall (fun z => str_ok z = true) l ->
  Exists (fun z => str_ok z = false) l -> False.
Proof.
  intros Hall (z & Hin & Hz)%Exists_exists.
  rewrite Forall_forall in Hall. specialize (Hall z Hin). congruence.
Qed.

Lemma Book___str___eq s b bk :
  book_heap s !! b = Some bk ->
  Book___str__ b s =
    if str_ok (Book.book_id bk) then Ok (book_text bk) s
    else Raise ValueError s.
Proof.
  intros Hb. unfold Book___str__. py_step.
  unfold bind, str_int, ret, book_text. by destruct (str_ok _).
Qed.

Lemma book_id_of_eq s b bk :
  book_heap s !! b = Some bk -> book_id_of s b = Book.book_id bk.
Proof. intros H. unfold book_id_of. by rewrite H. Qed.

Lemma member_id_of_eq s m mem :
  member_heap s !! m = Some mem -> member_id_of s m = Member.member_id mem.
Proof. intros H. unfold member_id_of. by rewrite H. Qed.

(** The loop prints a line for every book when every identifier can be
    converted. *)
Lemma print_books_loop_eq s bs :
  refs_ok (length (book_heap s)) bs ->
  Forall (fun z => str_ok z = true) (book_id_of s <$> bs) ->
  exists lines,
    print_books_loop bs s = Ok lines s /\
    length lines = length bs /\
    forall i b bk, bs !! i = Some b -> book_heap s !! b = Some bk ->
      lines !! i =
        Some (book_line bk
                (if Book.is_available bk then "Available" else "Borrowed")).
Proof.
  induction bs as [|b rest IH]; intros Hok Hall.
  - exists []. split_and!; [done..|]. intros i b bk Hi. by destruct i.
  - apply refs_ok_cons in Hok as [Hb Hrest].
    apply lookup_lt_is_Some in Hb as [bk Hbk].
    rewrite fmap_cons in Hall. apply Forall_cons in Hall as [Hid Hall].
    rewrite (book_id_of_eq s b bk Hbk) in Hid.
    destruct (IH Hrest Hall) as (lines & Hrun & Hlen & Hlines).
    exists (("  - " +:+ book_text bk)%string :: lines). split_and!.
    + cbn [print_books_loop].
      erewrite bind_Ok; [|by rewrite (Book___str___eq s b bk Hbk), Hid].
      by erewrite bind_Ok.
    + simpl. by rewrite Hlen.
    + intros [|i] b' bk' Hi Hb'; simpl in Hi |- *.
      * inversion Hi; subst b'. assert (bk' = bk) as -> by congruence.
        reflexivity.
      * by eapply Hlines.
Qed.

(** It stops with [ValueError] at the first book whose identifier is
    too long. *)
Lemma print_books_loop_long s bs :
  refs_ok (length (book_heap s)) bs ->
  Exists (fun z => str_ok z = false) (book_id_of s <$> bs) ->
  print_books_loop bs s = Raise ValueError s.
Proof.
  induction bs as [|b rest IH]; intros Hok Hlong.
  - by apply Exists_nil in Hlong.
  - apply refs_ok_cons in Hok as [Hb Hrest].
    apply lookup_lt_is_Some in Hb as [bk Hbk].
    rewrite fmap_cons, (book_id_of_eq s b bk Hbk) in Hlong.
    cbn [print_books_loop].
    destruct (str_ok (Book.book_id bk)) eqn:Hid.
    + erewrite bind_Ok; [|by rewrite (Book___str___eq s b bk Hbk), Hid].
      apply Exists_cons in Hlong as [Hlong|Hlong]; [congruence|].
      erewrite bind_Raise; [done|]. by apply IH.
    + erewrite bind_Raise; [done|].
      by rewrite (Book___str___eq s b bk Hbk), Hid.
Qed.

Lemma Member_list_borrowed_long s m mem :
  wf s ->
  member_heap s !! m = Some mem ->
  Exists (fun z => str_ok z = false)
    (book_id_of s <$> Member.borrowed_books mem) ->
  Member_list_borrowed m s = Raise ValueError s.
Proof.
  intros Hwf Hm Hlong. unfold Member_list_borrowed. py_step.
  destruct (Member.borrowed_books mem) as [|b0 rest] eqn:Hbooks.
  { by apply Exists_nil in Hlong. }
  erewrite bind_Raise; [done|]. apply print_books_loop_long; [|done].
  rewrite <-Hbooks. by eapply wf_borrowed.
Qed.

Lemma Library_show_books_long s lib x :
  wf s ->
  library_heap s !! lib = Some x ->
  Exists (fun z => str_ok z = false) (book_id_of s <$> Library.books x) ->
  Library_show_books lib s = Raise ValueError s.
Proof.
  intros Hwf Hx Hlong. unfold Library_show_books. py_step.
  destruct (Library.books x) as [|b0 rest] eqn:Hbooks.
  { by apply Exists_nil in Hlong. }
  erewrite bind_Raise; [done|]. apply print_books_loop_long; [|done].
  rewrite <-Hbooks. by eapply wf_books.
Qed.

Lemma Member_list_borrowed_total s m mem :
  wf s ->
  member_heap s !! m = Some mem ->
  Forall (fun z => str_ok z = true)
    (book_id_of s <$> Member.borrowed_books mem) ->
  exists lines, Member_list_borrowed m s = Ok lines s.
Proof.
  intros Hwf Hm Hall. unfold Member_list_borrowed. py_step.
  destruct (Member.borrowed_books mem) as [|b0 rest] eqn:Hbooks; [by eexists|].
  destruct (print_books_loop_eq s (b0 :: rest)) as (lines & Hrun & _);
    [|done|].
  { rewrite <-Hbooks. by eapply wf_borrowed. }
  eexists. by erewrite bind_Ok.
Qed.

Lemma Library_show_books_total s lib x :
  wf s ->
  library_heap s !! lib = Some x ->
  Forall (fun z => str_ok z = true) (book_id_of s <$> Library.books x) ->
  exists lines, Library_show_books lib s = Ok lines s.
Proof.
  intros Hwf Hx Hall. unfold Library_show_books. py_step.
  destruct (Library.books x) as [|b0 rest] eqn:Hbooks; [by eexists|].
  destruct (print_books_loop_eq s (b0 :: rest)) as (lines & Hrun & _);
    [|done|].
  { rewrite <-Hbooks. by eapply wf_books. }
  eexists. by erewrite bind_Ok.
Qed.

Lemma borrow_book_total s m b :
  m < length (member_heap s) -> b < length (book_heap s) ->
  exists r s', borrow_book m b s = Ok r s'.
Proof.
  intros [mem Hm]%lookup_lt_is_Some [bk Hb]%lookup_lt_is_Some.
  rewrite (borrow_book_eq s m b mem bk Hm Hb).
  repeat case_match; eauto.
Qed.

(** [return_book] and the methods of [Library] that refuse with a
    message: they return whenever the identifier in the message can be
    converted, and the one thing they raise is the [ValueError] of that
    conversion, the store being as it was. *)
Lemma Member_return_book_outcome s m book_id :
  wf s -> m < length (member_heap s) ->
  (str_ok book_id = true ->
   exists r s', Member_return_book m book_id s = Ok r s') /\
  (forall f s', Member_return_book m book_id s = Raise f s' ->
     f = ValueError /\ s' = s /\ str_ok book_id = false).
Proof.
  intros Hwf [mem Hm]%lookup_lt_is_Some.
  rewrite (Member_return_book_eq s m mem book_id Hwf Hm).
  destruct (first_ref _ _ _) as [b|] eqn:Hf.
  - pose proof (first_ref_elem _ _ _ _ Hf) as Hin.
    apply first_ref_Some in Hf as (bk & _ & _ & _ & -> & _).
    destruct (list_remove_elem b _ Hin) as [rest ->]. split; [by eauto|done].
  - split; [|intros f s'; apply refused_Raise].
    intros Hs. rewrite refused_ok by done. by eauto.
Qed.

Lemma Library_remove_book_outcome s lib book_id :
  wf s -> lib < length (library_heap s) ->
  (str_ok book_id = true ->
   exists r s', Library_remove_book lib book_id s = Ok r s') /\
  (forall f s', Library_remove_book lib book_id s = Raise f s' ->
     f = ValueError /\ s' = s /\ str_ok book_id = false).
Proof.
  intros Hwf [x Hx]%lookup_lt_is_Some.
  rewrite (Library_remove_book_eq s lib x book_id Hwf Hx).
  destruct (first_ref _ _ _) as [b|] eqn:Hf.
  - pose proof (first_ref_elem _ _ _ _ Hf) as Hin.
    destruct (list_remove_elem b _ Hin) as [rest ->]. split; [by eauto|done].
  - split; [|intros f s'; apply refused_Raise].
    intros Hs. rewrite refused_ok by done. by eauto.
Qed.

Lemma Library_borrow_outcome s lib member_id book_id :
  wf s -> lib < length (library_heap s) ->
  (str_ok member_id = true -> str_ok book_id = true ->
   exists r s', Library_borrow lib member_id book_id s = Ok r s') /\
  (forall f s', Library_borrow lib member_id book_id s = Raise f s' ->
     f = ValueError /\ s' = s /\
     (str_ok member_id = false \/ str_ok book_id = false)).
Proof.
  intros Hwf [x Hx]%lookup_lt_is_Some.
  rewrite (Library_borrow_eq s lib x member_id book_id Hwf Hx).
  destruct (first_ref (member_heap s) _ _) as [m|] eqn:Hfm.
  2:{ split.
      - intros Hs _. rewrite refused_ok by done. by eauto.
      - intros f s' (-> & -> & Hl)%refused_Raise. by eauto. }
  destruct (first_ref (book_heap s) _ _) as [b|] eqn:Hfb.
  2:{ split.
      - intros _ Hs. rewrite refused_ok by done. by eauto.
      - intros f s' (-> & -> & Hl)%refused_Raise. by eauto. }
  destruct (borrow_book_total s m b) as (r & s1 & H).
  - apply first_ref_Some in Hfm as (mem & _ & _ & _ & Hm & _).
    by eapply lookup_lt_Some.
  - apply first_ref_Some in Hfb as (bk & _ & _ & _ & Hb & _).
    by eapply lookup_lt_Some.
  - rewrite H. split; [by eauto|done].
Qed.

Lemma Library_return_book_outcome s lib member_id book_id :
  wf s -> lib < length (library_heap s) ->
  (str_ok member_id = true -> str_ok book_id = true ->
   exists r s', Library_return_book lib member_id book_id s = Ok r s') /\
  (forall f s', Library_return_book lib member_id book_id s = Raise f s' ->
     f = ValueError /\ s' = s /\
     (str_ok member_id = false \/ str_ok book_id = false)).
Proof.
  intros Hwf [x Hx]%lookup_lt_is_Some.
  rewrite (Library_return_book_eq s lib x member_id book_id Hwf Hx).
  destruct (first_ref (member_heap s) _ _) as [m|] eqn:Hfm.
  2:{ split.
      - intros Hs _. rewrite refused_ok by done. by eauto.
      - intros f s' (-> & -> & Hl)%refused_Raise. by eauto. }
  destruct (Member_return_book_outcome s m book_id Hwf) as [Hok Hraise].
  { apply first_ref_Some in Hfm as (mem & _ & _ & _ & Hm & _).
    by eapply lookup_lt_Some. }
  split; [by auto|].
  intros f s' (-> & -> & Hl)%Hraise. by eauto.
Qed.

(** Every call with references that exist, on a store without dangling
    references: it returns when every integer it may have to show can
    be converted; when it raises, it raises [ValueError], one of those
    integers is too long, and the store is as it was, except that
    [add_member] has registered the member before its message fails. *)
Lemma exec_outcome s op :
  wf s -> valid_call s op ->
  (Forall (fun z => str_ok z = true) (shown_ids s op) ->
   exists v s', exec op s = Ok v s') /\
  (forall f s', exec op s = Raise f s' ->
     f = ValueError /\
     Exists (fun z => str_ok z = false) (shown_ids s op) /\
     (s' = s \/
      exists lib m x, op = AddMember lib m /\
        library_heap s !! lib = Some x /\
        s' = put_library lib
               (Library.set_members (Library.members x ++ [m]) x) s)).
Proof.
  intros Hwf Hv. destruct op; simpl in Hv; cbn [exec shown_ids].
  - split; [intros _; by do 2 eexists|]. intros f s' H. by inversion H.
  - split; [intros _; by do 2 eexists|]. intros f s' H. by inversion H.
  - split; [intros _; by do 2 eexists|]. intros f s' H. by inversion H.
  - destruct Hv as [Hm Hb].
    destruct (borrow_book_total s m b Hm Hb) as (r & s1 & H). split.
    + intros _. exists (VBool r), s1. by erewrite bind_Ok.
    + intros f s' Hr%wrap_Raise_inv. congruence.
  - destruct (Member_return_book_outcome s m book_id Hwf Hv) as [Hok Hraise].
    split.
    + intros [Hs _]%Forall_cons. destruct (Hok Hs) as (r & s1 & H).
      exists (VBool r), s1. by erewrite bind_Ok.
    + intros f s' Hr%wrap_Raise_inv.
      destruct (Hraise _ _ Hr) as (-> & -> & Hl).
      split_and!; [done|by apply Exists_cons_hd|by left].
  - destruct Hv as [[x Hx]%lookup_lt_is_Some Hb].
    pose proof (Library_add_book_eq s lib x b Hx Hb) as H. split.
    + intros _. do 2 eexists. by erewrite bind_Ok.
    + intros f s' Hr. apply (wrap_Raise_inv _ (fun _ => VNone)) in Hr.
      congruence.
  - destruct (Library_remove_book_outcome s lib book_id Hwf Hv)
      as [Hok Hraise].
    split.
    + intros [Hs _]%Forall_cons. destruct (Hok Hs) as (r & s1 & H).
      exists (VBool r), s1. by erewrite bind_Ok.
    + intros f s' Hr%wrap_Raise_inv.
      destruct (Hraise _ _ Hr) as (-> & -> & Hl).
      split_and!; [done|by apply Exists_cons_hd|by left].
  - apply lookup_lt_is_Some in Hv as [x Hx].
    pose proof (Library_find_book_eq s lib x book_id Hwf Hx) as H. split.
    + intros _. do 2 eexists. by erewrite bind_Ok.
    + intros f s' Hr%wrap_Raise_inv. congruence.
  - destruct Hv as [[x Hx]%lookup_lt_is_Some [mem Hm]%lookup_lt_is_Some].
    pose proof (Library_add_member_eq s lib x m mem Hx Hm) as H.
    rewrite (member_id_of_eq s m mem Hm). split.
    + intros [Hs _]%Forall_cons. rewrite Hs in H.
      do 2 eexists. by erewrite bind_Ok.
    + intros f s' Hr. apply (wrap_Raise_inv _ (fun _ => VNone)) in Hr.
      rewrite H in Hr. destruct (str_ok (Member.member_id mem)) eqn:Hs;
        [done|].
      inversion Hr; subst.
      split_and!; [done|by apply Exists_cons_hd|]. right. by exists lib, m, x.
  - apply lookup_lt_is_Some in Hv as [x Hx].
    pose proof (Library_get_member_by_id_eq s lib x member_id Hwf Hx) as H.
    split.
    + intros _. do 2 eexists. by erewrite bind_Ok.
    + intros f s' Hr%wrap_Raise_inv. congruence.
  - destruct (Library_borrow_outcome s lib member_id book_id Hwf Hv)
      as [Hok Hraise].
    split.
    + intros [Hm [Hb _]%Forall_cons]%Forall_cons.
      destruct (Hok Hm Hb) as (r & s1 & H).
      exists (VBool r), s1. by erewrite bind_Ok.
    + intros f s' Hr%wrap_Raise_inv.
      destruct (Hraise _ _ Hr) as (-> & -> & Hl).
      split_and!; [done| |by left].
      destruct Hl; [by apply Exists_cons_hd|].
      by apply Exists_cons_tl, Exists_cons_hd.
  - destruct (Library_return_book_outcome s lib member_id book_id Hwf Hv)
      as [Hok Hraise].
    split.
    + intros [Hm [Hb _]%Forall_cons]%Forall_cons.
      destruct (Hok Hm Hb) as (r & s1 & H).
      exists (VBool r), s1. by erewrite bind_Ok.
    + intros f s' Hr%wrap_Raise_inv.
      destruct (Hraise _ _ Hr) as (-> & -> & Hl).
      split_and!; [done| |by left].
      destruct Hl; [by apply Exists_cons_hd|].
      by apply Exists_cons_tl, Exists_cons_hd.
  - destruct Hv as [[a Ha]%lookup_lt_is_Some [o Ho]%lookup_lt_is_Some].
    pose proof (Library___add___eq s lib other a o Hwf Ha Ho) as H. split.
    + intros _. do 2 eexists. by erewrite bind_Ok.
    + intros f s' Hr%wrap_Raise_inv. congruence.
  - apply lookup_lt_is_Some in Hv as [bk Hb].
    pose proof (Book___str___eq s b bk Hb) as H.
    rewrite (book_id_of_eq s b bk Hb). split.
    + intros [Hs _]%Forall_cons. rewrite Hs in H.
      do 2 eexists. by erewrite bind_Ok.
    + intros f s' Hr%wrap_Raise_inv. rewrite H in Hr.
      destruct (str_ok (Book.book_id bk)) eqn:Hs; [done|].
      inversion Hr; subst.
      split_and!; [done|by apply Exists_cons_hd|by left].
  - apply lookup_lt_is_Some in Hv as [mem Hm]. rewrite Hm. split.
    + intros Hall.
      destruct (Member_list_borrowed_total s m mem Hwf Hm Hall) as [l H].
      do 2 eexists. by erewrite bind_Ok.
    + intros f s' Hr. apply (wrap_Raise_inv _ (fun _ => VNone)) in Hr.
      destruct (long_or_short (book_id_of s <$> Member.borrowed_books mem))
        as [Hall|Hlong].
      * destruct (Member_list_borrowed_total s m mem Hwf Hm Hall) as [l H].
        congruence.
      * rewrite (Member_list_borrowed_long s m mem Hwf Hm Hlong) in Hr.
        inversion Hr; subst. split_and!; [done..|by left].
  - apply lookup_lt_is_Some in Hv as [x Hx]. rewrite Hx. split.
    + intros Hall.
      destruct (Library_show_books_total s lib x Hwf Hx Hall) as [l H].
      do 2 eexists. by erewrite bind_Ok.
    + intros f s' Hr. apply (wrap_Raise_inv _ (fun _ => VNone)) in Hr.
      destruct (long_or_short (book_id_of s <$> Library.books x))
        as [Hall|Hlong].
      * destruct (Library_show_books_total s lib x Hwf Hx Hall) as [l H].
        congruence.
      * rewrite (Library_show_books_long s lib x Hwf Hx Hlong) in Hr.
        inversion Hr; subst. split_and!; [done..|by left].
  - apply lookup_lt_is_Some in Hv as [mem Hm].
    pose proof (read_member_eq s m mem Hm) as H. split.
    + intros _. do 2 eexists. by erewrite bind_Ok.
    + intros f s' Hr%wrap_Raise_inv. congruence.
  - apply lookup_lt_is_Some in Hv as [mem Hm].
    pose proof (read_member_eq s m mem Hm) as H. split.
    + intros _. do 2 eexists. by erewrite bind_Ok.
    + intros f s' Hr%wrap_Raise_inv. congruence.
  - apply lookup_lt_is_Some in Hv as [bk Hb].
    pose proof (read_book_eq s b bk Hb) as H. split.
    + intros _. do 2 eexists. by erewrite bind_Ok.
    + intros f s' Hr%wrap_Raise_inv. congruence.
Qed.

Lemma ends_in_cases s op s' :
  wf s -> ends_in op s s' ->
  (exists v, exec op s = Ok v s') \/
  (valid_call s op /\
   (s' = s \/
    exists lib m x, op = AddMember lib m /\
      library_heap s !! lib = Some x /\
      s' = put_library lib
             (Library.set_members (Library.members x ++ [m]) x) s)).
Proof.
  intros Hwf [Hok|[Hv [f H]]]; [by left|right]. split; [done|].
  by destruct (proj2 (exec_outcome s op Hwf Hv) f s' H) as (_ & _ & Hs).
Qed.

Lemma exec_Raise_effect s op f s' :
  wf s -> valid_call s op -> exec op s = Raise f s' -> effect s s'.
Proof.
  intros Hwf Hv H.
  destruct (proj2 (exec_outcome s op Hwf Hv) f s' H)
    as (_ & _ & [->|(lib & m & x & -> & Hx & ->)]); [constructor|].
  destruct Hv as [_ Hm].
  constructor. apply libraries_ok_insert; [by apply libraries_ok_wf| |].
  - simpl. by eapply wf_books.
  - simpl. apply refs_ok_app. split; [by eapply wf_members|].
    by apply refs_ok_singleton.
Qed.

(** ** Invariants of the store *)

Lemma wf_empty : wf empty_store.
Proof. split; intros r x H; simpl in H; by rewrite lookup_nil in H. Qed.

Lemma consistent_empty : consistent empty_store.
Proof.
  split.
  - intros m b (mem & H & _). simpl in H. by rewrite lookup_nil in H.
  - intros b bk H. simpl in H. by rewrite lookup_nil in H.
  - intros m m' b (mem & H & _). simpl in H. by rewrite lookup_nil in H.
  - intros m mem H. simpl in H. by rewrite lookup_nil in H.
  - intros m mem n H. simpl in H. by rewrite lookup_nil in H.
Qed.

Section Preservation.
Variable s : Store.
Hypothesis Hwf : wf s.

Lemma wf_new_book bk :
  wf (mkStore (book_heap s ++ [bk]) (member_heap s) (library_heap s)).
Proof.
  split; simpl; intros r x Hx; rewrite ?length_app.
  - eapply refs_ok_mono; [|by eapply wf_borrowed]. lia.
  - eapply refs_ok_mono; [|by eapply wf_books]. lia.
  - by eapply wf_members.
Qed.

Lemma wf_new_member c n i :
  wf (mkStore (book_heap s) (member_heap s ++ [Member.mk c n i []])
        (library_heap s)).
Proof.
  split; simpl; intros r x Hx; rewrite ?length_app.
  - apply lookup_snoc_Some in Hx as [[_ Hx]|[_ <-]];
      [by eapply wf_borrowed|constructor].
  - by eapply wf_books.
  - eapply refs_ok_mono; [|by eapply wf_members]. lia.
Qed.

Lemma wf_libraries lh :
  libraries_ok s lh -> wf (mkStore (book_heap s) (member_heap s) lh).
Proof.
  intros Hok. split; simpl; intros r x Hx.
  - by eapply wf_borrowed.
  - by eapply Hok.
  - by eapply Hok.
Qed.

Lemma wf_lend m b mem bk :
  member_heap s !! m = Some mem ->
  book_heap s !! b = Some bk ->
  wf (lend m b mem bk s).
Proof.
  intros Hm Hb. split; simpl; intros r x Hx; rewrite length_insert.
  - apply list_lookup_insert_Some in Hx as [(_ & <- & _)|[_ Hx]];
      [|by eapply wf_borrowed].
    simpl. apply refs_ok_app. split; [by eapply wf_borrowed|].
    apply refs_ok_singleton. by eapply lookup_lt_Some.
  - by eapply wf_books.
  - by eapply wf_members.
Qed.

Lemma wf_give_back m b mem bk rest :
  member_heap s !! m = Some mem ->
  list_remove b (Member.borrowed_books mem) = Some rest ->
  wf (give_back m b mem bk rest s).
Proof.
  intros Hm Hr. split; simpl; intros r x Hx; rewrite length_insert.
  - apply list_lookup_insert_Some in Hx as [(_ & <- & _)|[_ Hx]];
      [|by eapply wf_borrowed].
    simpl. eapply refs_ok_subseteq; [by eapply list_remove_subseteq|].
    by eapply wf_borrowed.
  - by eapply wf_books.
  - by eapply wf_members.
Qed.

Lemma effect_wf s' : effect s s' -> wf s'.
Proof.
  destruct 1; eauto using wf_new_book, wf_new_member, wf_libraries, wf_lend,
    wf_give_back.
Qed.

End Preservation.

Lemma exec_wf s op v s' : wf s -> exec op s = Ok v s' -> wf s'.
Proof. intros Hwf H. eapply effect_wf; [done|]. by eapply exec_effect. Qed.

Lemma reachable_wf s : reachable s -> wf s.
Proof.
  induction 1; [apply wf_empty|by eapply exec_wf|].
  eapply effect_wf; [done|]. by eapply exec_Raise_effect.
Qed.

Lemma list_remove_elem_of x l l' y :
  list_remove x l = Some l' -> NoDup l -> y ∈ l' <-> y ∈ l /\ y ≠ x.
Proof.
  intros Hr Hnd. destruct (list_remove_NoDup _ _ _ Hr Hnd) as [_ Hx].
  apply list_remove_Some in Hr as (l1 & l2 & -> & -> & _).
  rewrite !elem_of_app, elem_of_cons. split.
  - intros H. split; [tauto|]. intros ->. apply Hx.
    rewrite elem_of_app. tauto.
  - intros [[?|[?|?]] ?]; tauto.
Qed.

Lemma list_remove_gives_elem x l l' : list_remove x l = Some l' -> x ∈ l.
Proof.
  intros (l1 & l2 & -> & _)%list_remove_Some.
  rewrite elem_of_app, elem_of_cons. tauto.
Qed.

Lemma holds_lend s m0 b0 mem0 bk0 m b :
  member_heap s !! m0 = Some mem0 ->
  holds (lend m0 b0 mem0 bk0 s) m b <-> holds s m b \/ (m = m0 /\ b = b0).
Proof.
  intros Hm. unfold holds, lend. simpl. split.
  - intros (mem & [(-> & <- & _)|[Hne Hl]]%list_lookup_insert_Some & Hin).
    + simpl in Hin. apply elem_of_app in Hin as [Hin|Hin%list_elem_of_singleton].
      * left. by exists mem0.
      * by right.
    + left. by exists mem.
  - intros [(mem & Hl & Hin)|[-> ->]].
    + destruct (decide (m = m0)) as [->|Hne].
      * eexists. split.
        { apply list_lookup_insert_eq. by eapply lookup_lt_Some. }
        simpl. apply elem_of_app. left. congruence.
      * exists mem. split; [|done]. by rewrite list_lookup_insert_ne.
    + eexists. split.
      { apply list_lookup_insert_eq. by eapply lookup_lt_Some. }
      simpl. apply elem_of_app. right. by apply list_elem_of_singleton.
Qed.

Lemma holds_give_back s m0 b0 mem0 bk0 rest m b :
  member_heap s !! m0 = Some mem0 ->
  NoDup (Member.borrowed_books mem0) ->
  list_remove b0 (Member.borrowed_books mem0) = Some rest ->
  holds (give_back m0 b0 mem0 bk0 rest s) m b <->
    holds s m b /\ ¬ (m = m0 /\ b = b0).
Proof.
  intros Hm Hnd Hr. unfold holds, give_back. simpl. split.
  - intros (mem & [(-> & <- & _)|[Hne Hl]]%list_lookup_insert_Some & Hin).
    + simpl in Hin. apply (list_remove_elem_of _ _ _ _ Hr Hnd) in Hin as [? ?].
      split; [by exists mem0|tauto].
    + split; [by exists mem|]. intros [-> _]. done.
  - intros [(mem & Hl & Hin) Hn].
    destruct (decide (m = m0)) as [->|Hne].
    + eexists. split.
      { apply list_lookup_insert_eq. by eapply lookup_lt_Some. }
      simpl. apply (list_remove_elem_of _ _ _ _ Hr Hnd).
      split; [congruence|]. intros ->. tauto.
    + exists mem. split; [|done]. by rewrite list_lookup_insert_ne.
Qed.

Section Consistency.
Variable s : Store.
Hypothesis Hc : consistent s.

Lemma consistent_new_book t a i :
  consistent (mkStore (book_heap s ++ [Book.mk t a i true])
                (member_heap s) (library_heap s)).
Proof.
  split; simpl.
  - intros m b Hh. destruct (held_unavailable s Hc m b Hh) as (bk & Hb & Ha).
    exists bk. split; [by apply lookup_app_l_Some|done].
  - intros b bk [[_ Hb]|[_ <-]]%lookup_snoc_Some Ha; [|done].
    by eapply (unavailable_held s Hc).
  - apply (holder_unique s Hc).
  - apply (borrowed_NoDup s Hc).
  - apply (within_limit s Hc).
Qed.

Lemma holds_new_member c n i m b :
  holds (mkStore (book_heap s) (member_heap s ++ [Member.mk c n i []])
           (library_heap s)) m b <-> holds s m b.
Proof.
  unfold holds. simpl. split.
  - intros (mem & [[_ Hm]|[_ <-]]%lookup_snoc_Some & Hin); [by exists mem|].
    by apply elem_of_nil in Hin.
  - intros (mem & Hm & Hin). exists mem. split; [|done].
    by apply lookup_app_l_Some.
Qed.

Lemma consistent_new_member c n i :
  consistent (mkStore (book_heap s) (member_heap s ++ [Member.mk c n i []])
                (library_heap s)).
Proof.
  split.
  - intros m b Hh%holds_new_member. by apply (held_unavailable s Hc m b).
  - intros b bk Hb Ha. destruct (unavailable_held s Hc b bk Hb Ha) as [m Hm].
    exists m. by apply holds_new_member.
  - intros m m' b H1%holds_new_member H2%holds_new_member.
    by eapply (holder_unique s Hc).
  - simpl. intros m mem [[_ Hm]|[_ <-]]%lookup_snoc_Some.
    + by eapply (borrowed_NoDup s Hc).
    + constructor.
  - simpl. intros m mem k [[_ Hm]|[_ <-]]%lookup_snoc_Some Hk.
    + by eapply (within_limit s Hc).
    + simpl. lia.
Qed.

Lemma consistent_libraries lh :
  consistent (mkStore (book_heap s) (member_heap s) lh).
Proof. destruct Hc. by split. Qed.

Lemma consistent_lend m0 b0 mem0 bk0 :
  member_heap s !! m0 = Some mem0 ->
  book_heap s !! b0 = Some bk0 ->
  at_limit mem0 = false ->
  Book.is_available bk0 = true ->
  consistent (lend m0 b0 mem0 bk0 s).
Proof.
  intros Hm Hb Hl Ha.
  assert (Hfree : forall m, ¬ holds s m b0).
  { intros m Hh. destruct (held_unavailable s Hc m b0 Hh) as (bk & Hbk & Hf).
    congruence. }
  assert (Hlt : b0 < length (book_heap s)) by by eapply lookup_lt_Some.
  split.
  - intros m b [Hh|[-> ->]]%(holds_lend _ _ _ _ _ _ _ Hm).
    + destruct (held_unavailable s Hc m b Hh) as (bk & Hbk & Hf).
      exists bk. split; [|done]. simpl. rewrite list_lookup_insert_ne; [done|].
      intros ->. by eapply Hfree.
    + eexists. split; [simpl; by apply list_lookup_insert_eq|done].
  - simpl. intros b bk [(-> & <- & _)|[Hne Hbk]]%list_lookup_insert_Some Hf.
    + exists m0. apply (holds_lend _ _ _ _ _ _ _ Hm). by right.
    + destruct (unavailable_held s Hc b bk Hbk Hf) as [m Hh].
      exists m. apply (holds_lend _ _ _ _ _ _ _ Hm). by left.
  - intros m m' b [H1|[E1 E1']]%(holds_lend _ _ _ _ _ _ _ Hm)
      [H2|[E2 E2']]%(holds_lend _ _ _ _ _ _ _ Hm); subst.
    + by eapply (holder_unique s Hc).
    + by apply Hfree in H1.
    + by apply Hfree in H2.
    + done.
  - simpl. intros m mem [(-> & <- & _)|[Hne Hmem]]%list_lookup_insert_Some.
    + simpl. apply NoDup_app. split_and!.
      * by eapply (borrowed_NoDup s Hc).
      * intros b Hin ->%list_elem_of_singleton.
        apply (Hfree m). by exists mem0.
      * apply NoDup_singleton.
    + by eapply (borrowed_NoDup s Hc).
  - simpl. intros m mem k [(-> & <- & _)|[Hne Hmem]]%list_lookup_insert_Some.
    + simpl. intros Hk. unfold at_limit in Hl. rewrite Hk in Hl.
      apply Nat.leb_gt in Hl. rewrite length_app. simpl. lia.
    + by eapply (within_limit s Hc).
Qed.

Lemma consistent_give_back m0 b0 mem0 bk0 rest :
  member_heap s !! m0 = Some mem0 ->
  book_heap s !! b0 = Some bk0 ->
  list_remove b0 (Member.borrowed_books mem0) = Some rest ->
  consistent (give_back m0 b0 mem0 bk0 rest s).
Proof.
  intros Hm Hb Hr.
  pose proof (borrowed_NoDup s Hc m0 mem0 Hm) as Hnd.
  assert (Hh0 : holds s m0 b0).
  { exists mem0. split; [done|]. by eapply list_remove_gives_elem. }
  assert (Hother : forall m b,
    holds (give_back m0 b0 mem0 bk0 rest s) m b -> holds s m b /\ b ≠ b0).
  { intros m b [Hh Hn]%(holds_give_back _ _ _ _ _ _ _ _ Hm Hnd Hr).
    split; [done|].
    intros ->. apply Hn. split; [|done]. by eapply (holder_unique s Hc). }
  split.
  - intros m b [Hh Hne]%Hother.
    destruct (held_unavailable s Hc m b Hh) as (bk & Hbk & Hf).
    exists bk. split; [|done]. simpl. by rewrite list_lookup_insert_ne.
  - simpl. intros b bk [(-> & <- & _)|[Hne Hbk]]%list_lookup_insert_Some Hf;
      [done|].
    destruct (unavailable_held s Hc b bk Hbk Hf) as [m Hh].
    exists m. apply (holds_give_back _ _ _ _ _ _ _ _ Hm Hnd Hr).
    split; [done|].
    intros [_ ->]. done.
  - intros m m' b [H1 _]%Hother [H2 _]%Hother.
    by eapply (holder_unique s Hc).
  - simpl. intros m mem [(-> & <- & _)|[Hne Hmem]]%list_lookup_insert_Some.
    + simpl. by eapply list_remove_NoDup.
    + by eapply (borrowed_NoDup s Hc).
  - simpl. intros m mem k [(-> & <- & _)|[Hne Hmem]]%list_lookup_insert_Some.
    + simpl. intros Hk. pose proof (within_limit s Hc m mem0 k Hm Hk).
      apply list_remove_length in Hr. lia.
    + by eapply (within_limit s Hc).
Qed.

Lemma effect_consistent s' : effect s s' -> consistent s'.
Proof.
  destruct 1; eauto using consistent_new_book, consistent_new_member,
    consistent_libraries, consistent_lend, consistent_give_back.
Qed.

End Consistency.

Lemma exec_consistent s op v s' :
  wf s -> consistent s -> exec op s = Ok v s' -> consistent s'.
Proof.
  intros Hwf Hc H. eapply effect_consistent; [done|]. by eapply exec_effect.
Qed.

Lemma reachable_consistent s : reachable s -> consistent s.
Proof.
  induction 1; [apply consistent_empty| |].
  - eapply exec_consistent; [|done..]. by apply reachable_wf.
  - eapply effect_consistent; [done|].
    eapply exec_Raise_effect; [|done..]. by apply reachable_wf.
Qed.

Lemma run_reachable ops s vs s' :
  reachable s -> run ops s = Ok vs s' -> reachable s'.
Proof.
  revert s vs. induction ops as [|op rest IH]; simpl; intros s vs Hs H.
  - by inversion H; subst.
  - destruct (exec op s) as [v s1|f s1] eqn:Hop; [|done].
    destruct (run rest s1) as [vs' s2|f s2] eqn:Hrest; [|done].
    inversion H; subst. eapply IH; [|done]. by eapply reachable_step.
Qed.

Lemma store_after_reachable ops : reachable (store_after ops).
Proof.
  unfold store_after. destruct (run ops empty_store) as [vs s|f s] eqn:H.
  - eapply run_reachable; [apply reachable_empty|done].
  - apply reachable_empty.
Qed.

(** ** Availability and holders *)

(** C1. In every store that a sequence of calls can produce (object
    creation, the methods of [Library], and also direct calls of the
    methods of [Member]), a book of a library is unavailable if and only
    if exactly one member has it in its [borrowed_books]. *)
Theorem unavailable_iff_one_holder s lib x b :
  reachable s ->
  library_heap s !! lib = Some x ->
  b ∈ Library.books x ->
  exists bk, book_heap s !! b = Some bk /\
    (Book.is_available bk = false <->
     exists m, holds s m b /\ forall m', holds s m' b -> m' = m).
Proof.
  intros Hr Hx Hb.
  pose proof (reachable_wf s Hr) as Hwf.
  pose proof (reachable_consistent s Hr) as Hc.
  destruct (refs_ok_lookup (book_heap s) (Library.books x) b) as [bk Hbk];
    [by eapply wf_books|done|].
  exists bk. split; [done|]. split.
  - intros Ha. destruct (unavailable_held s Hc b bk Hbk Ha) as [m Hm].
    exists m. split; [done|]. intros m' Hm'. by eapply (holder_unique s Hc).
  - intros (m & Hm & _).
    destruct (held_unavailable s Hc m b Hm) as (bk' & Hbk' & Ha). congruence.
Qed.

Lemma unavailable_iff_one_holder_witness :
  exists bk, book_heap (store_after lent_once) !! 0 = Some bk /\
    (Book.is_available bk = false <->
     exists m, holds (store_after lent_once) m 0 /\
       forall m', holds (store_after lent_once) m' 0 -> m' = m).
Proof.
  apply (unavailable_iff_one_holder (store_after lent_once) 0
           (Library.mk "C" [0] [0]) 0).
  - apply store_after_reachable.
  - reflexivity.
  - apply list_elem_of_singleton. reflexivity.
Defined.

(** The first scenario of the specification: a student borrows book
    101, a second student is refused the same book, the first returns
    it. *)
Example scenario_borrow_refuse_return :
  exists s,
    run [NewLibrary "C"; NewBook "Python Basics" "Guido van Rossum" 101;
         AddBook 0 0; NewMember StudentMember "Alice" 1; AddMember 0 0;
         NewMember StudentMember "Charlie" 2; AddMember 0 1;
         Borrow 0 1 101; Borrow 0 2 101; ReturnBook 0 1 101] empty_store
      = Ok [VRef 0; VRef 0; VNone; VRef 0; VNone; VRef 1; VNone;
            VBool true; VBool false; VBool true] s /\
    Book.is_available <$> book_heap s !! 0 = Some true /\
    Member.borrowed_books <$> member_heap s !! 0 = Some [].
Proof. eexists. split_and!; vm_compute; reflexivity. Qed.

(** ** Borrowing limits *)



(** The second scenario of the specification: after three books, the
    fourth is refused and nothing changes. *)
Example scenario_fourth_book_refused :
  exec (Borrow 0 1 4) (store_after student_full)
    = Ok (VBool false) (store_after student_full) /\
  Book.is_available <$> book_heap (store_after student_full) !! 3
    = Some true.
Proof. split; vm_compute; reflexivity. Qed.

(** ** Merging two libraries *)



Example merge_example :
  exists s',
    Library___add__ 0 1 (store_after two_libraries) = Ok 2 s' /\
    library_heap s' !! 2 = Some (Library.mk "A & B" [0; 1; 3] []).
Proof. eexists. split; vm_compute; reflexivity. Qed.

(** ** Removing a book *)

Lemma first_ref_intro {A} (heap : list A) p l l1 r l2 x :
  l = l1 ++ r :: l2 ->
  heap !! r = Some x -> p x = true ->
  (forall r' x', r' ∈ l1 -> heap !! r' = Some x' -> p x' = false) ->
  first_ref heap p l = Some r.
Proof.
  intros -> Hr Hp. induction l1 as [|r0 l1 IH]; intros Hl1; cbn [app].
  - by rewrite first_ref_cons, Hr, Hp.
  - rewrite first_ref_cons.
    destruct (heap !! r0) as [x0|] eqn:H0.
    + rewrite (Hl1 r0 x0); [|by left|done]. apply IH.
      intros r' x' Hin. apply Hl1. by right.
    + apply IH. intros r' x' Hin. apply Hl1. by right.
Qed.







(** ** Borrowing and returning *)

Lemma set_is_available_back bk :
  Book.is_available bk = true ->
  Book.set_is_available true (Book.set_is_available false bk) = bk.
Proof. destruct bk as [t a i v]. simpl. by intros ->. Qed.

Lemma set_borrowed_books_back l l' mem :
  Member.borrowed_books mem = l ->
  Member.set_borrowed_books l (Member.set_borrowed_books l' mem) = mem.
Proof. destruct mem. simpl. by intros ->. Qed.

Lemma give_back_lend s m b mem bk :
  member_heap s !! m = Some mem ->
  book_heap s !! b = Some bk ->
  Book.is_available bk = true ->
  give_back m b
    (Member.set_borrowed_books (Member.borrowed_books mem ++ [b]) mem)
    (Book.set_is_available false bk) (Member.borrowed_books mem)
    (lend m b mem bk s) = s.
Proof.
  intros Hm Hb Ha. unfold give_back, lend, put_member, put_book. simpl.
  rewrite !list_insert_insert_eq.
  rewrite set_is_available_back by done.
  rewrite set_borrowed_books_back by done.
  rewrite !list_insert_id by done. by destruct s.
Qed.

(** C5, as stated, fails.  Alice holds book [0], identifier 1.  Book [1],
    also identifier 1, is available.  She borrows book [1], with success,
    then returns identifier 1, with success: book [1] is still
    unavailable and still in her list, and it is book [0] that was handed
    back. *)
Lemma return_takes_other_book :
  Book.is_available <$> book_heap (store_after same_id_twice) !! 1
    = Some true /\
  Book.book_id <$> book_heap (store_after same_id_twice) !! 1 = Some 1%Z /\
  Book.is_available <$> book_heap (store_after same_id_twice) !! 0
    = Some false /\
  Member.borrowed_books <$> member_heap (store_after same_id_twice) !! 0
    = Some [0] /\
  exists s1 s2,
    borrow_book 0 1 (store_after same_id_twice) = Ok true s1 /\
    Member_return_book 0 1 s1 = Ok true s2 /\
    Book.is_available <$> book_heap s2 !! 1 = Some false /\
    Member.borrowed_books <$> member_heap s2 !! 0 = Some [1] /\
    Book.is_available <$> book_heap s2 !! 0 = Some true.
Proof.
  split_and!; try (vm_compute; reflexivity).
  do 2 eexists. split_and!; vm_compute; reflexivity.
Qed.

(** C5, amended.  When the member holds no book with the same identifier
    as the book, a successful [borrow_book] of it followed by
    [return_book] of its identifier succeeds and gives back the store as
    it was before the borrow: the book is available again, the member's
    [borrowed_books] is what it was, and no other book, member or library
    has changed. *)
Theorem borrow_then_return s m mem b bk s1 :
  wf s ->
  member_heap s !! m = Some mem ->
  book_heap s !! b = Some bk ->
  (forall b', b' ∈ Member.borrowed_books mem ->
     book_id_of s b' ≠ Book.book_id bk) ->
  borrow_book m b s = Ok true s1 ->
  Member_return_book m (Book.book_id bk) s1 = Ok true s /\
  Book.is_available bk = true /\
  b ∉ Member.borrowed_books mem.
Proof.
  intros Hwf Hm Hb Hother Hborrow.
  rewrite (borrow_book_eq s m b mem bk Hm Hb) in Hborrow.
  destruct (at_limit mem); [done|].
  destruct (Book.is_available bk) eqn:Ha; [|done].
  inversion Hborrow; subst s1; clear Hborrow.
  assert (b ∉ Member.borrowed_books mem) as Hnotin.
  { intros Hin. apply (Hother b Hin). unfold book_id_of. by rewrite Hb. }
  split_and!; [|done..].
  assert (Hlt : b < length (book_heap s)) by by eapply lookup_lt_Some.
  assert (Hltm : m < length (member_heap s)) by by eapply lookup_lt_Some.
  erewrite Member_return_book_eq.
  2:{ by apply wf_lend. }
  2:{ simpl. by apply list_lookup_insert_eq. }
  cbn [Member.borrowed_books Member.set_borrowed_books].
  erewrite first_ref_intro with (l1 := Member.borrowed_books mem) (r := b)
    (l2 := []); [|done| | |].
  - rewrite list_remove_app_last by done.
    cbn [lend put_member put_book book_heap].
    rewrite list_lookup_insert_eq by done.
    by rewrite give_back_lend.
  - simpl. by apply list_lookup_insert_eq.
  - unfold has_book_id. simpl. apply Z.eqb_refl.
  - intros b' bk' Hin. simpl.
    rewrite list_lookup_insert_ne by (intros ->; done).
    intros Hbk'. unfold has_book_id. apply Z.eqb_neq.
    specialize (Hother b' Hin). unfold book_id_of in Hother.
    by rewrite Hbk' in Hother.
Qed.

Lemma borrow_then_return_witness :
  Member_return_book 0
    (Book.book_id (Book.mk "Python Basics" "Guido van Rossum" 101 true))
    (store_after lent_once)
    = Ok true
        (store_after one_book_library) /\
  Book.is_available (Book.mk "Python Basics" "Guido van Rossum" 101 true)
    = true /\
  0 ∉ Member.borrowed_books (Member.mk StudentMember "Alice" 1 []).
Proof.
  apply (borrow_then_return
           (store_after one_book_library)
           0 (Member.mk StudentMember "Alice" 1 []) 0
           (Book.mk "Python Basics" "Guido van Rossum" 101 true)
           (store_after lent_once)).
  - apply reachable_wf, store_after_reachable.
  - reflexivity.
  - reflexivity.
  - intros b' Hin. simpl in Hin. by apply elem_of_nil in Hin.
  - vm_compute. reflexivity.
Defined.

(** The same through libraries, in a session that starts from
    [seed_demo_data]: Charlie holds "Python Basics" (book [0], borrowed in
    the merged library) and the AI library's own book 101 (book [4]).
    Returning 101 in the AI library hands back book [0]. *)
Example return_takes_other_book_in_session :
  seed_demo_data empty_store = Ok (0, 1) (store_after seeded) /\
  Member.borrowed_books <$> member_heap (store_after session) !! 2
    = Some [0; 4] /\
  exists s',
    exec (ReturnBook 1 3 101) (store_after session) = Ok (VBool true) s' /\
    Book.is_available <$> book_heap s' !! 4 = Some false /\
    Book.is_available <$> book_heap s' !! 0 = Some true /\
    Member.borrowed_books <$> member_heap s' !! 2 = Some [4].
Proof.
  split_and!; try (vm_compute; reflexivity).
  eexists. split_and!; vm_compute; reflexivity.
Qed.

(** ** The life of a book *)




Lemma first_ref_has_book_id s l book_id b bk :
  first_ref (book_heap s) (has_book_id book_id) l = Some b ->
  book_heap s !! b = Some bk -> book_id = Book.book_id bk.
Proof.
  intros (bk' & _ & _ & _ & Hbk' & Hp & _)%first_ref_Some Hbk.
  unfold has_book_id, Book.get_book_id in Hp. apply Z.eqb_eq in Hp.
  congruence.
Qed.


Lemma borrow_book_library_heap s m b r s' :
  borrow_book m b s = Ok r s' -> library_heap s' = library_heap s.
Proof.
  by intros (mem & Hm & [[_ ->]|(bk & _ & _ & _ & _ & ->)])%borrow_book_inv.
Qed.

Lemma Member_return_book_library_heap s m i r s' :
  wf s -> Member_return_book m i s = Ok r s' ->
  library_heap s' = library_heap s.
Proof.
  intros Hwf H. by apply Member_return_book_inv in H
    as (mem & Hm & [(_ & -> & _)|(b & bk & rest & _ & _ & _ & _ & ->)]).
Qed.




(** ** [Library.borrow] *)

(** C7, as stated, fails.  The library of [one_book_library] has no
    member with the identifier [long_id], an integer of 4301 digits:
    [get_member_by_id] returns [None].  Yet [borrow] does not return
    [False]: its message shows the identifier, and the conversion raises
    [ValueError].  The same happens for member 1 and a book identifier
    that the library does not have. *)
Lemma borrow_of_long_id_raises :
  Library_get_member_by_id 0 long_id (store_after one_book_library)
    = Ok None (store_after one_book_library) /\
  Library_borrow 0 long_id 101 (store_after one_book_library)
    = Raise ValueError (store_after one_book_library) /\
  Library_find_book 0 long_id (store_after one_book_library)
    = Ok None (store_after one_book_library) /\
  Library_borrow 0 1 long_id (store_after one_book_library)
    = Raise ValueError (store_after one_book_library).
Proof. split_and!; vm_compute; reflexivity. Qed.

(** C7, amended.  [Library.borrow(member_id, book_id)] leaves the store
    as it was when the library has no member with [member_id], and when
    it has no book with [book_id]; it then refuses with a message that
    shows the identifier it did not find, the member's first: it returns
    [False], unless that identifier has more than 4300 digits, in which
    case the message cannot be built and [ValueError] is raised.  Both
    lookups always complete without changing the store.  When the
    library has a member with [member_id] and a book with [book_id], the
    call is exactly [m.borrow_book(b)] for the first such member [m] of
    [members] and the first such book [b] of [books]: same result, same
    store. *)
Theorem borrow_resolves_then_delegates s lib x member_id book_id :
  wf s ->
  library_heap s !! lib = Some x ->
  ((forall m mem, m ∈ Library.members x -> member_heap s !! m = Some mem ->
      Member.member_id mem ≠ member_id) ->
   Library_borrow lib member_id book_id s =
     if str_ok member_id then Ok false s else Raise ValueError s) /\
  ((exists m mem, m ∈ Library.members x /\ member_heap s !! m = Some mem /\
      Member.member_id mem = member_id) ->
   (forall b bk, b ∈ Library.books x -> book_heap s !! b = Some bk ->
      Book.book_id bk ≠ book_id) ->
   Library_borrow lib member_id book_id s =
     if str_ok book_id then Ok false s else Raise ValueError s) /\
  (exists member book,
     Library_get_member_by_id lib member_id s = Ok member s /\
     Library_find_book lib book_id s = Ok book s) /\
  (forall l1 m l2 mem k1 b k2 bk,
     Library.members x = l1 ++ m :: l2 ->
     member_heap s !! m = Some mem ->
     Member.member_id mem = member_id ->
     (forall m' mem', m' ∈ l1 -> member_heap s !! m' = Some mem' ->
        Member.member_id mem' ≠ member_id) ->
     Library.books x = k1 ++ b :: k2 ->
     book_heap s !! b = Some bk ->
     Book.book_id bk = book_id ->
     (forall b' bk', b' ∈ k1 -> book_heap s !! b' = Some bk' ->
        Book.book_id bk' ≠ book_id) ->
     Library_borrow lib member_id book_id s = borrow_book m b s).
Proof.
  intros Hwf Hx.
  pose proof (Library_borrow_eq s lib x member_id book_id Hwf Hx) as Heq.
  pose proof (Library_get_member_by_id_eq s lib x member_id Hwf Hx) as Hgm.
  pose proof (Library_find_book_eq s lib x book_id Hwf Hx) as Hfb.
  split_and!.
  - intros Hno. rewrite Heq.
    assert (first_ref (member_heap s) (has_member_id member_id)
              (Library.members x) = None) as ->; [|done].
    apply first_ref_None. intros m mem Hin Hm.
    apply Z.eqb_neq. by eapply Hno.
  - intros (m & mem & Hin & Hm & Hid) Hno. rewrite Heq.
    destruct (first_ref (member_heap s) _ _) as [m'|] eqn:Hfm.
    2:{ exfalso.
        pose proof (proj1 (first_ref_None _ _ _) Hfm m mem Hin Hm) as Hp.
        unfold has_member_id, Member.get_member_id in Hp.
        apply Z.eqb_neq in Hp. done. }
    assert (first_ref (book_heap s) (has_book_id book_id)
              (Library.books x) = None) as ->; [|done].
    apply first_ref_None. intros b bk Hinb Hb.
    apply Z.eqb_neq. by eapply Hno.
  - by eauto.
  - intros l1 m l2 mem k1 b k2 bk Hl Hm Hid Hl1 Hk Hb Hbid Hk1.
    rewrite Heq.
    erewrite (first_ref_intro (member_heap s)); [|done|done| |].
    2:{ unfold has_member_id, Member.get_member_id. by apply Z.eqb_eq. }
    2:{ intros m' mem' Hin Hm'. apply Z.eqb_neq. by eapply Hl1. }
    erewrite (first_ref_intro (book_heap s)); [done|done|done| |].
    { unfold has_book_id, Book.get_book_id. by apply Z.eqb_eq. }
    { intros b' bk' Hin Hb'. apply Z.eqb_neq. by eapply Hk1. }
Qed.

Lemma borrow_resolves_then_delegates_witness :
  Library_borrow 0 1 101 (store_after one_book_library)
    = borrow_book 0 0 (store_after one_book_library).
Proof.
  refine (proj2 (proj2 (proj2
    (borrow_resolves_then_delegates (store_after one_book_library) 0
       (Library.mk "C" [0] [0]) 1 101 _ _)))
    [] 0 [] (Member.mk StudentMember "Alice" 1 [])
    [] 0 [] (Book.mk "Python Basics" "Guido van Rossum" 101 true)
    _ _ _ _ _ _ _ _).
  - apply reachable_wf, store_after_reachable.
  - reflexivity.
  - reflexivity.
  - reflexivity.
  - reflexivity.
  - intros m' mem' Hin. by apply elem_of_nil in Hin.
  - reflexivity.
  - reflexivity.
  - reflexivity.
  - intros b' bk' Hin. by apply elem_of_nil in Hin.
Defined.

(** ** When a call raises *)




Example find_book_absent :
  Library_find_book 0 999 (store_after one_book_library)
    = Ok None (store_after one_book_library) /\
  Library_get_member_by_id 0 999 (store_after one_book_library)
    = Ok None (store_after one_book_library).
Proof. split; vm_compute; reflexivity. Qed.



(** ** Duplicates inside one source of a merge *)







(** * Further properties of the classes *)

(** ** Returning *)



(** X2. [Library.return_book(member_id, book_id)] changes nothing when
    the library has no member with [member_id]: it returns [False] after
    a message that shows [member_id], or raises [ValueError] when
    [member_id] has more than 4300 digits.  Otherwise it is
    [return_book(book_id)] of the first member with that identifier.
    The book need not belong to the library. *)
Theorem library_return_book_delegates s lib x member_id book_id :
  wf s ->
  library_heap s !! lib = Some x ->
  ((forall m mem, m ∈ Library.members x -> member_heap s !! m = Some mem ->
      Member.member_id mem ≠ member_id) ->
   Library_return_book lib member_id book_id s =
     if str_ok member_id then Ok false s else Raise ValueError s) /\
  (forall l1 m l2 mem,
     Library.members x = l1 ++ m :: l2 ->
     member_heap s !! m = Some mem ->
     Member.member_id mem = member_id ->
     (forall m' mem', m' ∈ l1 -> member_heap s !! m' = Some mem' ->
        Member.member_id mem' ≠ member_id) ->
     Library_return_book lib member_id book_id s =
       Member_return_book m book_id s).
Proof.
  intros Hwf Hx.
  rewrite (Library_return_book_eq s lib x member_id book_id Hwf Hx).
  split.
  - intros Hno.
    assert (first_ref (member_heap s) (has_member_id member_id)
              (Library.members x) = None) as ->; [|done].
    apply first_ref_None. intros m mem Hin Hm. apply Z.eqb_neq.
    by eapply Hno.
  - intros l1 m l2 mem Hl Hm Hid Hl1.
    erewrite first_ref_intro; [done|done|done| |].
    + by apply Z.eqb_eq.
    + intros m' mem' Hin Hm'. apply Z.eqb_neq. by eapply Hl1.
Qed.

Lemma library_return_book_delegates_witness :
  Library_return_book 0 1 101 (store_after lent_once)
    = Member_return_book 0 101 (store_after lent_once).
Proof.
  refine (proj2 (library_return_book_delegates (store_after lent_once) 0
                   (Library.mk "C" [0] [0]) 1 101 _ _)
            [] 0 [] (Member.mk StudentMember "Alice" 1 [0]) _ _ _ _).
  - apply reachable_wf, store_after_reachable.
  - reflexivity.
  - reflexivity.
  - reflexivity.
  - reflexivity.
  - intros m' mem' Hin. by apply elem_of_nil in Hin.
Defined.

(** ** Borrowing *)





(** X5. In a store produced by calls, a book that has just been
    returned with success is held by nobody, and the member who returned
    it is below its limit: that member can borrow the same book again at
    once. *)
Theorem returned_book_can_be_borrowed_again s m book_id s' :
  reachable s ->
  Member_return_book m book_id s = Ok true s' ->
  exists b bk s'',
    holds s m b /\ book_heap s !! b = Some bk /\
    Book.book_id bk = book_id /\
    (forall m', ¬ holds s' m' b) /\
    borrow_book m b s' = Ok true s'' /\
    holds s'' m b.
Proof.
  intros Hr H.
  pose proof (reachable_wf s Hr) as Hwf.
  pose proof (reachable_consistent s Hr) as Hc.
  apply Member_return_book_inv in H
    as (mem & Hm & [(? & _)|(b & bk & rest & Hf & Hb & Hrm & _ & ->)]);
    [done| |done].
  pose proof (borrowed_NoDup s Hc m mem Hm) as Hnd.
  assert (holds s m b) as Hh.
  { exists mem. split; [done|]. by eapply list_remove_gives_elem. }
  assert (Hlt : b < length (book_heap s)) by by eapply lookup_lt_Some.
  assert (Hltm : m < length (member_heap s)) by by eapply lookup_lt_Some.
  set (mem' := Member.set_borrowed_books rest mem).
  set (bk' := Book.set_is_available true bk).
  assert (member_heap (give_back m b mem bk rest s) !! m = Some mem') as Hm'.
  { simpl. by apply list_lookup_insert_eq. }
  assert (book_heap (give_back m b mem bk rest s) !! b = Some bk') as Hb'.
  { simpl. by apply list_lookup_insert_eq. }
  assert (at_limit mem' = false) as Hl.
  { unfold at_limit. simpl.
    destruct (max_borrow (Member.cls mem)) as [n|] eqn:Hmax; [|done].
    apply Nat.leb_gt. pose proof (within_limit s Hc m mem n Hm Hmax).
    apply list_remove_length in Hrm. lia. }
  exists b, bk, (lend m b mem' bk' (give_back m b mem bk rest s)).
  split_and!; try done.
  - symmetry. by eapply first_ref_has_book_id.
  - intros m' [Hh' Hn]%(holds_give_back _ _ _ _ _ _ _ _ Hm Hnd Hrm).
    apply Hn. split; [|done]. by eapply (holder_unique s Hc).
  - by rewrite (borrow_book_eq _ m b mem' bk' Hm' Hb'), Hl.
  - apply (holds_lend _ _ _ _ _ _ _ Hm'). by right.
Qed.

Lemma returned_book_can_be_borrowed_again_witness :
  exists b bk s'',
    holds (store_after lent_once) 0 b /\
    book_heap (store_after lent_once) !! b = Some bk /\
    Book.book_id bk = 101%Z /\
    (forall m', ¬ holds (store_after one_book_library) m' b) /\
    borrow_book 0 b (store_after one_book_library) = Ok true s'' /\
    holds s'' 0 b.
Proof.
  apply (returned_book_can_be_borrowed_again (store_after lent_once) 0 101
           (store_after one_book_library)).
  - apply store_after_reachable.
  - vm_compute. reflexivity.
Defined.

(** ** Adding, finding, removing *)


Lemma put_library_lookup_ne r r' x s :
  r ≠ r' -> library_heap (put_library r x s) !! r' = library_heap s !! r'.
Proof. intros Hne. simpl. by rewrite list_lookup_insert_ne. Qed.







(** ** What no call does *)

Lemma effect_member_identity s s' m mem :
  effect s s' ->
  member_heap s !! m = Some mem ->
  exists mem', member_heap s' !! m = Some mem' /\
    Member.cls mem' = Member.cls mem /\
    Member.name mem' = Member.name mem /\
    Member.member_id mem' = Member.member_id mem.
Proof.
  intros He Hm. destruct He as [|t a i|c n i|lh Hok|m0 b mem0 bk H0 Hb Hl Ha
                                |m0 b mem0 bk rest H0 Hb Hr]; simpl.
  - by exists mem.
  - by exists mem.
  - exists mem. split; [by apply lookup_app_l_Some|done].
  - by exists mem.
  - destruct (decide (m = m0)) as [->|Hne].
    + eexists. split; [apply list_lookup_insert_eq; by eapply lookup_lt_Some|].
      assert (mem0 = mem) as -> by congruence. done.
    + exists mem. by rewrite list_lookup_insert_ne.
  - destruct (decide (m = m0)) as [->|Hne].
    + eexists. split; [apply list_lookup_insert_eq; by eapply lookup_lt_Some|].
      assert (mem0 = mem) as -> by congruence. done.
    + exists mem. by rewrite list_lookup_insert_ne.
Qed.

Lemma members_step_same s' lib x :
  library_heap s' !! lib = Some x -> members_step s' lib x.
Proof.
  intros H. exists x. split_and!; [done..|]. exists []. by rewrite app_nil_r.
Qed.

Lemma members_step_put s lib0 x0 x0' lib x :
  library_heap s !! lib0 = Some x0 ->
  library_heap s !! lib = Some x ->
  Library.name x0' = Library.name x0 ->
  (exists more, Library.members x0' = Library.members x0 ++ more) ->
  members_step (put_library lib0 x0' s) lib x.
Proof.
  intros H0 Hx Hn Hm. destruct (decide (lib = lib0)) as [->|Hne].
  - exists x0'. assert (x0 = x) as -> by congruence.
    split; [|done]. apply put_library_lookup. by eapply lookup_lt_Some.
  - apply members_step_same. by rewrite put_library_lookup_ne.
Qed.

Lemma exec_members_step s op v s' lib0 x :
  wf s ->
  exec op s = Ok v s' ->
  library_heap s !! lib0 = Some x ->
  members_step s' lib0 x.
Proof.
  intros Hwf H Hx. destruct op; simpl in H;
    apply bind_Ok_inv in H as (r & s1 & H & Hret);
    inversion Hret; subst; clear Hret.
  - inversion H; subst. by apply members_step_same.
  - inversion H; subst. by apply members_step_same.
  - inversion H; subst. apply members_step_same. by apply lookup_app_l_Some.
  - apply members_step_same.
    by rewrite (borrow_book_library_heap _ _ _ _ _ H).
  - apply members_step_same.
    by rewrite (Member_return_book_library_heap _ _ _ _ _ Hwf H).
  - apply Library_add_book_inv in H as (x0 & Hx0 & Hb & ->).
    eapply members_step_put; [done..|]. exists []. simpl. by rewrite app_nil_r.
  - apply Library_remove_book_inv in H
      as (x0 & Hx0 & [(_ & -> & _)|(b0 & rest & _ & _ & _ & ->)]); [| |done].
    + by apply members_step_same.
    + eapply members_step_put; [done..|]. exists []. simpl.
      by rewrite app_nil_r.
  - apply Library_find_book_inv in H as (x0 & _ & -> & _); [|done].
    by apply members_step_same.
  - apply Library_add_member_inv in H as (x0 & Hx0 & Hm & ->).
    eapply members_step_put; [done..|]. by exists [m].
  - apply Library_get_member_by_id_inv in H as (x0 & _ & -> & _); [|done].
    by apply members_step_same.
  - apply members_step_same.
    apply Library_borrow_inv in H as (x0 & Hx0 & H); [|done].
    destruct (first_ref (member_heap s) _ _);
      [destruct (first_ref (book_heap s) _ _)|].
    + by rewrite (borrow_book_library_heap _ _ _ _ _ H).
    + by destruct H as [_ ->].
    + by destruct H as [_ ->].
  - apply members_step_same.
    apply Library_return_book_inv in H as (x0 & Hx0 & H); [|done].
    destruct (first_ref (member_heap s) _ _).
    + by rewrite (Member_return_book_library_heap _ _ _ _ _ Hwf H).
    + by destruct H as [_ ->].
  - apply Library___add___inv in H as (a & o & Ha & Ho & _ & ->); [|done].
    apply members_step_same. by apply lookup_app_l_Some.
  - pose proof (Book___str___reads s b) as Hs. rewrite H in Hs. subst.
    by apply members_step_same.
  - pose proof (Member_list_borrowed_reads s m) as Hs. rewrite H in Hs.
    subst. by apply members_step_same.
  - pose proof (Library_show_books_reads s lib) as Hs. rewrite H in Hs.
    subst. by apply members_step_same.
  - apply read_member_inv in H as [_ ->]. by apply members_step_same.
  - apply read_member_inv in H as [_ ->]. by apply members_step_same.
  - apply read_book_inv in H as [_ ->]. by apply members_step_same.
Qed.

Lemma ends_in_effect s op s' : wf s -> ends_in op s s' -> effect s s'.
Proof.
  intros Hwf [[v H]|[Hv [f H]]];
    [by eapply exec_effect|by eapply exec_Raise_effect].
Qed.

Lemma ends_in_members_step s op s' lib0 x :
  wf s ->
  ends_in op s s' ->
  library_heap s !! lib0 = Some x ->
  members_step s' lib0 x.
Proof.
  intros Hwf He Hx.
  destruct (ends_in_cases s op s' Hwf He)
    as [[v H]|[_ [->|(lib & m & x0 & -> & Hx0 & ->)]]].
  - by eapply exec_members_step.
  - by apply members_step_same.
  - eapply members_step_put; [done..|]. by exists [m].
Qed.

(** X9. No call deletes or renames anything.  Across any call, whether
    it returns or raises, every member object keeps its class, name and
    [member_id]; every library keeps its name, and its [members] list
    keeps all its entries in place, new ones coming at the end: there is
    no way to unregister a member. *)
Theorem nothing_is_unregistered s op s' :
  wf s ->
  ends_in op s s' ->
  (forall m mem, member_heap s !! m = Some mem ->
     exists mem', member_heap s' !! m = Some mem' /\
       Member.cls mem' = Member.cls mem /\
       Member.name mem' = Member.name mem /\
       Member.member_id mem' = Member.member_id mem) /\
  (forall lib x, library_heap s !! lib = Some x -> members_step s' lib x).
Proof.
  intros Hwf H. split.
  - intros m mem Hm. eapply effect_member_identity; [|done].
    by eapply ends_in_effect.
  - intros lib x Hx. by eapply ends_in_members_step.
Qed.

Lemma nothing_is_unregistered_witness :
  (forall m mem, member_heap (store_after lent_once) !! m = Some mem ->
     exists mem', member_heap (store_after one_book_library) !! m = Some mem' /\
       Member.cls mem' = Member.cls mem /\
       Member.name mem' = Member.name mem /\
       Member.member_id mem' = Member.member_id mem) /\
  (forall lib x, library_heap (store_after lent_once) !! lib = Some x ->
     members_step (store_after one_book_library) lib x).
Proof.
  apply (nothing_is_unregistered (store_after lent_once) (ReturnBook 0 1 101)
           (store_after one_book_library)).
  - apply reachable_wf, store_after_reachable.
  - left. exists (VBool true). vm_compute. reflexivity.
Defined.

(** ** The algebra of merging *)















(** ** What the display methods print *)



Example show_books_example :
  Library_show_books 0 (store_after lent_once) =
    Ok [(newline +:+ "Books in C:")%string;
        "  - [101] Python Basics by Guido van Rossum - Borrowed"]
       (store_after lent_once).
Proof. vm_compute. reflexivity. Qed.



(** ** Unique identifiers *)

Lemma effect_book_id_of s s' b :
  effect s s' -> b < length (book_heap s) ->
  book_id_of s' b = book_id_of s b.
Proof.
  intros He [bk Hbk]%lookup_lt_is_Some. unfold book_id_of.
  destruct He as [|t a i|c n i|lh Hok|m0 b0 mem0 bk0 H0 Hb Hl Ha
                  |m0 b0 mem0 bk0 rest H0 Hb Hr]; simpl; try done.
  - erewrite lookup_app_l_Some by done. by rewrite Hbk.
  - destruct (decide (b = b0)) as [->|Hne].
    + rewrite list_lookup_insert_eq by by eapply lookup_lt_Some.
      rewrite Hbk. by assert (bk0 = bk) as -> by congruence.
    + by rewrite list_lookup_insert_ne.
  - destruct (decide (b = b0)) as [->|Hne].
    + rewrite list_lookup_insert_eq by by eapply lookup_lt_Some.
      rewrite Hbk. by assert (bk0 = bk) as -> by congruence.
    + by rewrite list_lookup_insert_ne.
Qed.

Lemma effect_book_ids s s' l :
  effect s s' -> refs_ok (length (book_heap s)) l ->
  book_id_of s' <$> l = book_id_of s <$> l.
Proof.
  intros He Hok. induction l as [|b l IH]; [done|].
  apply refs_ok_cons in Hok as [Hb Hl]. rewrite !fmap_cons.
  f_equal; [by apply effect_book_id_of|by apply IH].
Qed.

Lemma unique_same_libraries s s' :
  wf s -> unique_book_ids s -> effect s s' ->
  library_heap s' = library_heap s -> unique_book_ids s'.
Proof.
  intros Hwf Hu He Hlh lib x Hx. rewrite Hlh in Hx.
  rewrite (effect_book_ids s s'); [by eapply Hu|done|by eapply wf_books].
Qed.

Lemma unique_same_books s s' :
  book_heap s' = book_heap s ->
  (forall lib x, library_heap s' !! lib = Some x ->
     NoDup (book_id_of s <$> Library.books x)) ->
  unique_book_ids s'.
Proof.
  intros Hbh H lib x Hx. unfold book_id_of. rewrite Hbh. by eapply H.
Qed.

Lemma list_remove_sublist x l l' :
  list_remove x l = Some l' -> l' `sublist_of` l.
Proof.
  intros (l1 & l2 & -> & -> & _)%list_remove_Some.
  apply sublist_app; [done|]. by apply sublist_cons.
Qed.

Lemma exec_unique_book_ids s op v s' :
  wf s ->
  unique_book_ids s ->
  exec op s = Ok v s' ->
  (forall lib b x, op = AddBook lib b -> library_heap s !! lib = Some x ->
     book_id_of s b ∉ book_id_of s <$> Library.books x) ->
  unique_book_ids s'.
Proof.
  intros Hwf Hu H Hfresh.
  pose proof (exec_effect s op v s' Hwf H) as He.
  destruct op; simpl in H;
    apply bind_Ok_inv in H as (r & s1 & H & Hret);
    inversion Hret; subst; clear Hret.
  - inversion H; subst. by eapply unique_same_libraries.
  - inversion H; subst. by eapply unique_same_libraries.
  - inversion H; subst. apply (unique_same_books s); [done|]. simpl.
    intros lib x [[_ Hx]|[_ <-]]%lookup_snoc_Some; [by eapply Hu|].
    constructor.
  - eapply unique_same_libraries; [done..|].
    by eapply borrow_book_library_heap.
  - eapply unique_same_libraries; [done..|].
    by eapply Member_return_book_library_heap.
  - apply Library_add_book_inv in H as (x & Hx & Hb & ->).
    apply (unique_same_books s); [done|]. simpl.
    intros lib' x' [(-> & <- & _)|[_ Hx']]%list_lookup_insert_Some;
      [|by eapply Hu].
    simpl. rewrite fmap_app. apply NoDup_app. split_and!.
    + by eapply Hu.
    + intros k Hk ->%list_elem_of_singleton. by eapply Hfresh.
    + apply NoDup_singleton.
  - apply Library_remove_book_inv in H
      as (x & Hx & [(_ & -> & _)|(b0 & rest & _ & Hr & _ & ->)]); [| |done].
    + done.
    + apply (unique_same_books s); [done|]. simpl.
      intros lib' x' [(-> & <- & _)|[_ Hx']]%list_lookup_insert_Some;
        [|by eapply Hu].
      simpl. eapply sublist_NoDup; [by eapply Hu|].
      by apply fmap_sublist, (list_remove_sublist b0).
  - apply Library_find_book_inv in H as (x & _ & -> & _); [|done]. done.
  - apply Library_add_member_inv in H as (x & Hx & Hm & ->).
    apply (unique_same_books s); [done|]. simpl.
    intros lib' x' [(-> & <- & _)|[_ Hx']]%list_lookup_insert_Some;
      [|by eapply Hu].
    simpl. by eapply Hu.
  - apply Library_get_member_by_id_inv in H as (x & _ & -> & _); [|done].
    done.
  - eapply unique_same_libraries; [done..|].
    apply Library_borrow_inv in H as (x0 & Hx0 & H); [|done].
    destruct (first_ref (member_heap s) _ _);
      [destruct (first_ref (book_heap s) _ _)|].
    + by eapply borrow_book_library_heap.
    + by destruct H as [_ ->].
    + by destruct H as [_ ->].
  - eapply unique_same_libraries; [done..|].
    apply Library_return_book_inv in H as (x0 & Hx0 & H); [|done].
    destruct (first_ref (member_heap s) _ _).
    + by eapply Member_return_book_library_heap.
    + by destruct H as [_ ->].
  - apply Library___add___inv in H as (a & o & Ha & Ho & _ & ->); [|done].
    apply (unique_same_books s); [done|]. simpl.
    intros lib' x' [[_ Hx']|[_ <-]]%lookup_snoc_Some; [by eapply Hu|].
    apply keep_first_NoDup.
  - pose proof (Book___str___reads s b) as Hs. rewrite H in Hs. by subst.
  - pose proof (Member_list_borrowed_reads s m) as Hs. rewrite H in Hs.
    by subst.
  - pose proof (Library_show_books_reads s lib) as Hs. rewrite H in Hs.
    by subst.
  - by apply read_member_inv in H as [_ ->].
  - by apply read_member_inv in H as [_ ->].
  - by apply read_book_inv in H as [_ ->].
Qed.

Lemma ends_in_unique_book_ids s op s' :
  wf s ->
  unique_book_ids s ->
  ends_in op s s' ->
  (forall lib b x, op = AddBook lib b -> library_heap s !! lib = Some x ->
     book_id_of s b ∉ book_id_of s <$> Library.books x) ->
  unique_book_ids s'.
Proof.
  intros Hwf Hu He Hfresh.
  destruct (ends_in_cases s op s' Hwf He)
    as [[v H]|[_ [->|(lib & m & x0 & -> & Hx0 & ->)]]].
  - by eapply exec_unique_book_ids.
  - done.
  - apply (unique_same_books s); [done|]. simpl.
    intros lib' x' [(-> & <- & _)|[_ Hx']]%list_lookup_insert_Some;
      [|by eapply Hu].
    simpl. by eapply Hu.
Qed.

(** X14. Every call, whether it returns or raises, keeps book
    identifiers unique within each library, except [add_book] of a book
    whose identifier the library already has: that call, which is never
    refused, is the one way a library comes to hold two books with one
    identifier. *)
Theorem only_add_book_duplicates s op s' :
  wf s ->
  unique_book_ids s ->
  ends_in op s s' ->
  ((forall lib b x, op = AddBook lib b -> library_heap s !! lib = Some x ->
      book_id_of s b ∉ book_id_of s <$> Library.books x) ->
   unique_book_ids s') /\
  (forall lib b x, op = AddBook lib b -> library_heap s !! lib = Some x ->
     book_id_of s b ∈ book_id_of s <$> Library.books x ->
     ¬ unique_book_ids s').
Proof.
  intros Hwf Hu He. split; [by eapply ends_in_unique_book_ids|].
  intros lib b x -> Hx Hclash Hu'.
  destruct He as [[v H]|[Hv [f H]]].
  2:{ destruct (proj2 (exec_outcome s _ Hwf Hv) f s' H) as (_ & Hex & _).
      by apply Exists_nil in Hex. }
  simpl in H.
  apply bind_Ok_inv in H as (r & s1 & H & Hret).
  inversion Hret; subst; clear Hret.
  apply Library_add_book_inv in H as (x0 & Hx0 & Hb & ->).
  assert (x0 = x) as -> by congruence.
  specialize (Hu' lib (Library.set_books (Library.books x ++ [b]) x)).
  rewrite put_library_lookup in Hu' by by eapply lookup_lt_Some.
  specialize (Hu' eq_refl). simpl in Hu'.
  rewrite fmap_app in Hu'. apply NoDup_app in Hu' as (_ & Hdisj & _).
  apply (Hdisj (book_id_of s b)); [done|]. by left.
Qed.

Lemma unique_book_ids_two_libraries :
  unique_book_ids (store_after two_libraries).
Proof.
  intros lib x Hx. destruct lib as [|[|lib]]; vm_compute in Hx.
  - inversion Hx; subst.
    replace (book_id_of (store_after two_libraries) <$> _)
      with [1%Z; 2%Z] by (vm_compute; reflexivity).
    apply NoDup_cons. split; [|apply NoDup_singleton].
    intros Hin%list_elem_of_singleton. discriminate Hin.
  - inversion Hx; subst.
    replace (book_id_of (store_after two_libraries) <$> _)
      with [2%Z; 3%Z] by (vm_compute; reflexivity).
    apply NoDup_cons. split; [|apply NoDup_singleton].
    intros Hin%list_elem_of_singleton. discriminate Hin.
  - by destruct lib.
Defined.

Lemma only_add_book_duplicates_witness :
  ((forall lib b x, AddBook 0 2 = AddBook lib b ->
      library_heap (store_after two_libraries) !! lib = Some x ->
      book_id_of (store_after two_libraries) b
        ∉ book_id_of (store_after two_libraries) <$> Library.books x) ->
   unique_book_ids (store_after (two_libraries ++ [AddBook 0 2]))) /\
  (forall lib b x, AddBook 0 2 = AddBook lib b ->
     library_heap (store_after two_libraries) !! lib = Some x ->
     book_id_of (store_after two_libraries) b
       ∈ book_id_of (store_after two_libraries) <$> Library.books x ->
     ¬ unique_book_ids (store_after (two_libraries ++ [AddBook 0 2]))).
Proof.
  apply (only_add_book_duplicates (store_after two_libraries) (AddBook 0 2)
           (store_after (two_libraries ++ [AddBook 0 2]))).
  - apply reachable_wf, store_after_reachable.
  - apply unique_book_ids_two_libraries.
  - left. exists VNone. vm_compute. reflexivity.
Defined.

(** ** The session *)

Lemma wp_ret {A} (a : A) st (Q : A -> CliState -> Prop) R :
  Q a st -> cli_wp (cli_ret a) st Q R.
Proof. done. Qed.

Lemma wp_bind {A B} (c : Cli A) (k : A -> Cli B) st
  (Q : B -> CliState -> Prop) R :
  cli_wp c st (fun a st' => cli_wp (k a) st' Q R) R ->
  cli_wp (cli_bind c k) st Q R.
Proof. unfold cli_wp, cli_bind. by destruct (c st). Qed.

Lemma wp_input st (Q : string -> CliState -> Prop) R :
  (forall line rest, stdin st = line :: rest -> Q line (with_stdin rest st)) ->
  cli_wp input st Q R.
Proof.
  intros H. unfold cli_wp, input. destruct (stdin st); [done|]. by apply H.
Qed.

Lemma wp_read_text B st (Q : string -> CliState -> Prop) R :
  (forall text rest, length rest < length (stdin st) ->
     Q text (with_stdin rest st)) ->
  cli_wp (read_text B) st Q R.
Proof.
  intros HQ. unfold read_text. apply wp_bind, wp_input.
  intros line rest Hin. apply wp_ret, HQ. rewrite Hin. simpl. lia.
Qed.

(** What [read_int] hands on is an integer that [str] converts. *)
Lemma wp_read_int B st (Q : Z -> CliState -> Prop) (R : CliState -> Prop) :
  (forall z rest, str_ok z = true -> length rest < length (stdin st) ->
     Q z (with_stdin rest st)) ->
  (forall rest, length rest < length (stdin st) -> R (with_stdin rest st)) ->
  cli_wp (read_int B) st Q R.
Proof.
  intros HQ HR. unfold read_int. apply wp_bind, wp_input.
  intros line rest Hin.
  assert (length rest < length (stdin st)) by (rewrite Hin; simpl; lia).
  unfold cli_wp. destruct (int_of B (strip B line)) as [z|]; [|auto].
  destruct (str_ok z) eqn:Hz; auto.
Qed.

Lemma turn_ok_stdin n st rest :
  turn_ok n st -> length rest <= length (stdin st) ->
  turn_ok n (with_stdin rest st).
Proof.
  intros [[] Hlen] Hrest. split; [by split|]. simpl. lia.
Qed.

Lemma exec_book_count s op v s' :
  wf s -> exec op s = Ok v s' ->
  (forall t a i, op ≠ NewBook t a i) ->
  length (book_heap s') = length (book_heap s).
Proof.
  intros Hwf H Hop. destruct op; simpl in H;
    apply bind_Ok_inv in H as (r & s1 & H & Hret);
    inversion Hret; subst; clear Hret.
  - by destruct (Hop title author book_id).
  - by inversion H.
  - by inversion H.
  - apply borrow_book_inv in H
      as (mem & _ & [[_ ->]|(bk & _ & _ & _ & _ & ->)]); [done|].
    simpl. by rewrite length_insert.
  - apply Member_return_book_inv in H
      as (mem & _ & [(_ & -> & _)|(b & bk & rest & _ & _ & _ & _ & ->)]);
      [done| |done].
    simpl. by rewrite length_insert.
  - by apply Library_add_book_inv in H as (x & _ & _ & ->).
  - by apply Library_remove_book_inv in H
      as (x & _ & [(_ & -> & _)|(b0 & rest & _ & _ & _ & ->)]).
  - by apply Library_find_book_inv in H as (x & _ & -> & _).
  - by apply Library_add_member_inv in H as (x & _ & _ & ->).
  - by apply Library_get_member_by_id_inv in H as (x & _ & -> & _).
  - apply Library_borrow_inv in H as (x & _ & H); [|done].
    destruct (first_ref (member_heap s) _ _); [|by destruct H as [_ ->]].
    destruct (first_ref (book_heap s) _ _); [|by destruct H as [_ ->]].
    apply borrow_book_inv in H
      as (mem & _ & [[_ ->]|(bk & _ & _ & _ & _ & ->)]); [done|].
    simpl. by rewrite length_insert.
  - apply Library_return_book_inv in H as (x & _ & H); [|done].
    destruct (first_ref (member_heap s) _ _); [|by destruct H as [_ ->]].
    apply Member_return_book_inv in H
      as (mem & _ & [(_ & -> & _)|(b & bk & rest & _ & _ & _ & _ & ->)]);
      [done| |done].
    simpl. by rewrite length_insert.
  - by apply Library___add___inv in H as (a & o & _ & _ & _ & ->).
  - pose proof (Book___str___reads s b) as Hs. rewrite H in Hs. by subst.
  - pose proof (Member_list_borrowed_reads s m) as Hs. rewrite H in Hs.
    by subst.
  - pose proof (Library_show_books_reads s lib) as Hs. rewrite H in Hs.
    by subst.
  - by apply read_member_inv in H as [_ ->].
  - by apply read_member_inv in H as [_ ->].
  - by apply read_book_inv in H as [_ ->].
Qed.

Lemma effect_printable_books s s' :
  effect s s' ->
  printable_books s ->
  (forall t a i,
     book_heap s' = book_heap s ++ [Book.mk t a i true] ->
     str_ok i = true) ->
  printable_books s'.
Proof.
  intros He Hp Hnew b bk' Hb.
  destruct He as [|t a i|c n i|lh Hok|m0 b0 mem0 bk0 H0 Hb0 Hl Ha
                  |m0 b0 mem0 bk0 rest H0 Hb0 Hr]; simpl in Hb.
  - by eapply Hp.
  - apply lookup_snoc_Some in Hb as [[_ Hb]|[_ <-]]; [by eapply Hp|].
    simpl. by eapply Hnew.
  - by eapply Hp.
  - by eapply Hp.
  - apply list_lookup_insert_Some in Hb as [(_ & <- & _)|[_ Hb]];
      [|by eapply Hp].
    simpl. by eapply Hp.
  - apply list_lookup_insert_Some in Hb as [(_ & <- & _)|[_ Hb]];
      [|by eapply Hp].
    simpl. by eapply Hp.
Qed.

Lemma exec_printable_books s op v s' :
  wf s ->
  printable_books s ->
  exec op s = Ok v s' ->
  (forall t a i, op = NewBook t a i -> str_ok i = true) ->
  printable_books s'.
Proof.
  intros Hwf Hp H Hnew.
  apply (effect_printable_books s); [by eapply exec_effect|done|].
  intros t a i Hheap.
  assert ((exists t0 a0 i0, op = NewBook t0 a0 i0) \/
          forall t0 a0 i0, op ≠ NewBook t0 a0 i0) as [Hop|Hop].
  { destruct op; try (by right); left; by do 3 eexists. }
  - destruct Hop as (t0 & a0 & i0 & ->). simpl in H. inversion H; subst.
    simpl in Hheap. apply app_inv_head in Hheap. inversion Hheap; subst.
    by eapply Hnew.
  - exfalso. assert (length (book_heap s') = length (book_heap s)) as Hlen.
    { by eapply exec_book_count. }
    rewrite Hheap, length_app in Hlen. simpl in Hlen. lia.
Qed.

Lemma printable_ids s l :
  printable_books s ->
  refs_ok (length (book_heap s)) l ->
  Forall (fun z => str_ok z = true) (book_id_of s <$> l).
Proof.
  intros Hp Hok. apply Forall_fmap, Forall_forall. intros b Hb. simpl.
  destruct (refs_ok_lookup (book_heap s) l b Hok Hb) as [bk Hbk].
  rewrite (book_id_of_eq s b bk Hbk). by eapply Hp.
Qed.

Lemma wp_get_state st (Q : CliState -> CliState -> Prop) R :
  Q st st -> cli_wp get_state st Q R.
Proof. done. Qed.

Lemma wp_getitem {A} (l : list A) i a st (Q : A -> CliState -> Prop) R :
  py_index l i = Some a -> Q a st -> cli_wp (getitem l i) st Q R.
Proof. intros H HQ. unfold cli_wp, getitem. by rewrite H. Qed.

Lemma wp_call {A} (c : Py A) st (Q : A -> CliState -> Prop) R :
  (exists a s', c (cli_store st) = Ok a s') ->
  (forall a s', c (cli_store st) = Ok a s' -> Q a (with_store s' st)) ->
  cli_wp (call c) st Q R.
Proof.
  intros (a & s' & H) HQ. unfold cli_wp, call. rewrite H. by apply HQ.
Qed.

Lemma with_store_same st : with_store (cli_store st) st = st.
Proof. by destruct st. Qed.

(** A call that is one of the calls of [exec] keeps the state good,
    the case of [add_book] apart. *)
Lemma turn_ok_exec n st op v s' :
  turn_ok n st ->
  exec op (cli_store st) = Ok v s' ->
  (forall lib b x, op = AddBook lib b ->
     library_heap (cli_store st) !! lib = Some x ->
     book_id_of (cli_store st) b
       ∉ book_id_of (cli_store st) <$> Library.books x) ->
  (forall t a i, op = NewBook t a i -> str_ok i = true) ->
  turn_ok n (with_store s' st).
Proof.
  intros [[Hr Htwo Hact Hlibs Hu Hp] Hlen] H Hfresh Hnew.
  pose proof (reachable_wf _ Hr) as Hwf.
  split; [|done]. split; simpl; try done.
  - by eapply reachable_step.
  - unfold refs_ok in *. rewrite Forall_forall in *. intros lib Hin.
    apply Hlibs in Hin. apply lookup_lt_is_Some in Hin as [x Hx].
    destruct (exec_members_step _ _ _ _ _ _ Hwf H Hx) as (x' & Hx' & _).
    by eapply lookup_lt_Some.
  - by eapply exec_unique_book_ids.
  - by eapply exec_printable_books.
Qed.

Lemma print_names_loop_eq s libs :
  refs_ok (length (library_heap s)) libs ->
  print_names_loop libs s = Ok tt s.
Proof.
  induction libs as [|lib rest IH]; [done|].
  intros [[x Hx]%lookup_lt_is_Some Hrest]%refs_ok_cons.
  simpl. py_step. by apply IH.
Qed.

Lemma wp_call_exec {A} (c : Py A) (op : Op) (f : A -> Value) n st
  (Q : A -> CliState -> Prop) R :
  (forall s, exec op s = (r <- c ;; ret (f r)) s) ->
  turn_ok n st ->
  (exists a s', c (cli_store st) = Ok a s') ->
  (forall lib b x, op = AddBook lib b ->
     library_heap (cli_store st) !! lib = Some x ->
     book_id_of (cli_store st) b
       ∉ book_id_of (cli_store st) <$> Library.books x) ->
  (forall t a i, op = NewBook t a i -> str_ok i = true) ->
  (forall a s', c (cli_store st) = Ok a s' ->
     turn_ok n (with_store s' st) -> Q a (with_store s' st)) ->
  cli_wp (call c) st Q R.
Proof.
  intros Hdef Hok Htotal Hfresh Hnew HQ. apply wp_call; [done|].
  intros a s' Hc. apply HQ; [done|].
  eapply turn_ok_exec; [done| |done..]. rewrite Hdef. by erewrite bind_Ok.
Qed.

Lemma wp_call_read {A} (c : Py A) a st (Q : A -> CliState -> Prop) R :
  c (cli_store st) = Ok a (cli_store st) ->
  Q a st ->
  cli_wp (call c) st Q R.
Proof.
  intros H HQ. unfold cli_wp, call. rewrite H.
  by replace (mkCli _ _ _ _) with st by by destruct st.
Qed.

Lemma turn_ok_wf n st : turn_ok n st -> wf (cli_store st).
Proof. intros [[Hr _ _ _ _ _] _]. by apply reachable_wf. Qed.

Lemma menu_remove_book_ok B n st lib :
  turn_ok n st ->
  lib < length (library_heap (cli_store st)) ->
  cli_wp (menu_remove_book B lib) st (fun _ => turn_ok n) (turn_ok n).
Proof.
  intros Hok Hlib. unfold menu_remove_book.
  apply wp_bind, wp_read_int;
    [intros book_id rest Hbid Hl
    |intros rest Hl; apply turn_ok_stdin; [done|lia]].
  assert (turn_ok n (with_stdin rest st)) as Hok1
    by (apply turn_ok_stdin; [done|lia]).
  apply wp_bind.
  eapply (wp_call_exec _ (RemoveBook lib book_id) VBool);
    [done|exact Hok1| |done|done|].
  - apply Library_remove_book_outcome; [by eapply turn_ok_wf|done..].
  - intros a s' _ Hok2. by apply wp_ret.
Qed.

Lemma menu_borrow_ok B n st lib :
  turn_ok n st ->
  lib < length (library_heap (cli_store st)) ->
  cli_wp (menu_borrow B lib) st (fun _ => turn_ok n) (turn_ok n).
Proof.
  intros Hok Hlib. unfold menu_borrow.
  apply wp_bind, wp_read_int;
    [intros member_id rest1 Hmid Hl1
    |intros rest1 Hl1; apply turn_ok_stdin; [done|lia]].
  assert (turn_ok n (with_stdin rest1 st)) as Hok1
    by (apply turn_ok_stdin; [done|lia]).
  apply wp_bind, wp_read_int;
    [intros book_id rest2 Hbid Hl2
    |intros rest2 Hl2; apply turn_ok_stdin; [done|simpl in *; lia]].
  assert (turn_ok n (with_stdin rest2 (with_stdin rest1 st))) as Hok2
    by (apply turn_ok_stdin; [done|simpl in *; lia]).
  apply wp_bind.
  eapply (wp_call_exec _ (Borrow lib member_id book_id) VBool);
    [done|exact Hok2| |done|done|].
  - apply Library_borrow_outcome; [by eapply turn_ok_wf|done..].
  - intros a s' _ Hok3. by apply wp_ret.
Qed.

Lemma menu_return_ok B n st lib :
  turn_ok n st ->
  lib < length (library_heap (cli_store st)) ->
  cli_wp (menu_return B lib) st (fun _ => turn_ok n) (turn_ok n).
Proof.
  intros Hok Hlib. unfold menu_return.
  apply wp_bind, wp_read_int;
    [intros member_id rest1 Hmid Hl1
    |intros rest1 Hl1; apply turn_ok_stdin; [done|lia]].
  assert (turn_ok n (with_stdin rest1 st)) as Hok1
    by (apply turn_ok_stdin; [done|lia]).
  apply wp_bind, wp_read_int;
    [intros book_id rest2 Hbid Hl2
    |intros rest2 Hl2; apply turn_ok_stdin; [done|simpl in *; lia]].
  assert (turn_ok n (with_stdin rest2 (with_stdin rest1 st))) as Hok2
    by (apply turn_ok_stdin; [done|simpl in *; lia]).
  apply wp_bind.
  eapply (wp_call_exec _ (ReturnBook lib member_id book_id) VBool);
    [done|exact Hok2| |done|done|].
  - apply Library_return_book_outcome; [by eapply turn_ok_wf|done..].
  - intros a s' _ Hok3. by apply wp_ret.
Qed.

Lemma menu_list_borrowed_ok B n st lib :
  turn_ok n st ->
  lib < length (library_heap (cli_store st)) ->
  cli_wp (menu_list_borrowed B lib) st (fun _ => turn_ok n) (turn_ok n).
Proof.
  intros Hok Hlib. unfold menu_list_borrowed.
  apply wp_bind, wp_read_int;
    [intros member_id rest1 Hmid Hl1
    |intros rest1 Hl1; apply turn_ok_stdin; [done|lia]].
  assert (turn_ok n (with_stdin rest1 st)) as Hok1
    by (apply turn_ok_stdin; [done|lia]).
  pose proof (turn_ok_wf _ _ Hok) as Hwf.
  apply lookup_lt_is_Some in Hlib as [x Hx].
  apply wp_bind. eapply wp_call_read.
  { by apply Library_get_member_by_id_eq. }
  destruct (first_ref _ _ _) as [m|] eqn:Hf; [|by apply wp_ret].
  apply first_ref_Some in Hf as (mem & _ & _ & _ & Hm & _).
  destruct (Member_list_borrowed_total (cli_store st) m mem Hwf Hm)
    as [lines Hl].
  { apply printable_ids; [by destruct Hok as [[] _]|by eapply wf_borrowed]. }
  apply wp_bind. eapply wp_call_read; [exact Hl|]. by apply wp_ret.
Qed.

Lemma register_ok n st lib c name member_id :
  turn_ok n st ->
  str_ok member_id = true ->
  lib < length (library_heap (cli_store st)) ->
  cli_wp (let! m := call (Member___init__ c name member_id) in
          call (Library_add_member lib m))
    st (fun _ => turn_ok n) (turn_ok n).
Proof.
  intros Hok Hmid Hlib. apply wp_bind.
  eapply (wp_call_exec _ (NewMember c name member_id) VRef);
    [done|exact Hok|by do 2 eexists|done|done|].
  intros m s' Hc Hok1. inversion Hc; subst m s'; clear Hc.
  eapply (wp_call_exec _ (AddMember lib (length (member_heap (cli_store st))))
            (fun _ => VNone)); [done|exact Hok1| |done|done|by auto].
  apply lookup_lt_is_Some in Hlib as [x Hx].
  do 2 eexists.
  erewrite (Library_add_member_eq _ lib x _ (Member.mk c name member_id []));
    [|done|simpl; by apply list_lookup_middle].
  simpl. by rewrite Hmid.
Qed.

Lemma menu_register_ok B n st lib :
  turn_ok n st ->
  lib < length (library_heap (cli_store st)) ->
  cli_wp (menu_register B lib) st (fun _ => turn_ok n) (turn_ok n).
Proof.
  intros Hok Hlib. unfold menu_register.
  apply wp_bind, wp_read_text. intros name rest1 Hl1.
  apply wp_bind, wp_read_text. intros role rest2 Hl2.
  apply wp_bind, wp_read_int;
    [intros member_id rest3 Hmid Hl3
    |intros rest3 Hl3; do 3 (apply turn_ok_stdin; [|simpl in *; lia]);
     done].
  assert (turn_ok n
            (with_stdin rest3 (with_stdin rest2 (with_stdin rest1 st))))
    as Hok3.
  { do 3 (apply turn_ok_stdin; [|simpl in *; lia]). done. }
  destruct (String.eqb _ "student"); [by apply register_ok|].
  destruct (String.eqb _ "faculty"); [by apply register_ok|].
  by apply wp_ret.
Qed.

Lemma menu_add_book_ok B n st lib :
  turn_ok n st ->
  lib < length (library_heap (cli_store st)) ->
  cli_wp (menu_add_book B lib) st (fun _ => turn_ok n) (turn_ok n).
Proof.
  intros Hok Hlib. unfold menu_add_book.
  apply wp_bind, wp_read_text. intros title rest1 Hl1.
  apply wp_bind, wp_read_text. intros author rest2 Hl2.
  apply wp_bind, wp_read_int;
    [intros book_id rest3 Hbid Hl3
    |intros rest3 Hl3; do 3 (apply turn_ok_stdin; [|simpl in *; lia]);
     done].
  set (st3 := with_stdin rest3 (with_stdin rest2 (with_stdin rest1 st))).
  assert (turn_ok n st3) as Hok3.
  { do 3 (apply turn_ok_stdin; [|simpl in *; lia]). done. }
  pose proof (turn_ok_wf _ _ Hok) as Hwf.
  apply lookup_lt_is_Some in Hlib as [x Hx].
  apply wp_bind. eapply wp_call_read.
  { by apply (Library_find_book_eq (cli_store st) lib x). }
  destruct (first_ref _ _ _) as [found|] eqn:Hfind; [exact Hok3|].
  apply wp_bind.
  eapply (wp_call_exec _ (NewBook title author book_id) VRef);
    [done|exact Hok3|by do 2 eexists|done|by intros t a i [= _ _ <-]|].
  intros b s' Hc Hok4. inversion Hc; subst b s'; clear Hc.
  set (bk := Book.mk title author book_id true).
  set (s1 := mkStore (book_heap (cli_store st) ++ [bk])
               (member_heap (cli_store st)) (library_heap (cli_store st))).
  eapply (wp_call_exec _ (AddBook lib (length (book_heap (cli_store st))))
            (fun _ => VNone)); [done|exact Hok4| | |done|by auto].
  - do 2 eexists. apply (Library_add_book_eq _ lib x); [done|].
    simpl. rewrite length_app. simpl. lia.
  - intros lib' b' x' [= <- <-] Hx'. simpl in Hx'.
    assert (x' = x) as -> by congruence.
    change (cli_store (with_store s1 st3)) with s1.
    rewrite (effect_book_ids (cli_store st) s1);
      [|constructor|by eapply wf_books].
    assert (book_id_of s1 (length (book_heap (cli_store st))) = book_id)
      as ->.
    { unfold book_id_of, s1. simpl. by rewrite list_lookup_middle. }
    intros (r & Hid & Hin)%list_elem_of_fmap.
    destruct (refs_ok_lookup (book_heap (cli_store st)) (Library.books x) r)
      as [bkr Hr]; [by eapply wf_books|done|].
    pose proof (proj1 (first_ref_None _ _ _) Hfind r bkr Hin Hr) as Hne.
    apply Z.eqb_neq in Hne. apply Hne. unfold book_id_of in Hid.
    by rewrite Hr in Hid.
Qed.

Lemma py_index_nonneg {A} (l : list A) (i : Z) :
  (0 <= i)%Z -> py_index l i = l !! Z.to_nat i.
Proof.
  intros Hi. unfold py_index. by rewrite (proj2 (Z.leb_le 0 i) Hi).
Qed.

Lemma py_index_partner {A} (l : list A) (i : Z) :
  2 <= length l -> (0 <= i < Z.of_nat (length l))%Z ->
  py_index l (1 - i) = l !! partner_position (length l) i /\
  partner_position (length l) i < length l.
Proof.
  intros Hlen Hi. unfold py_index, partner_position.
  destruct (i =? 0)%Z eqn:H0; [apply Z.eqb_eq in H0 as ->; split; [done|lia]|].
  destruct (i =? 1)%Z eqn:H1; [apply Z.eqb_eq in H1 as ->; split; [done|lia]|].
  apply Z.eqb_neq in H0, H1.
  rewrite (proj2 (Z.leb_gt 0 (1 - i))) by lia.
  rewrite (proj2 (Z.leb_le (- Z.of_nat (length l)) (1 - i))) by lia.
  split; [f_equal|]; lia.
Qed.

Lemma turn_ok_append n st merged :
  turn_ok n st ->
  merged < length (library_heap (cli_store st)) ->
  turn_ok n (mkCli (cli_store st) (libraries st ++ [merged])
               (Z.of_nat (length (libraries st ++ [merged])) - 1)
               (stdin st)).
Proof.
  intros [[Hr Htwo Hact Hlibs Hu Hp] Hlen] Hm. split; [|done].
  split; simpl; try done.
  - rewrite length_app. simpl. lia.
  - rewrite length_app. simpl. lia.
  - apply refs_ok_app. split; [done|by apply refs_ok_singleton].
Qed.

Lemma turn_ok_switch n st i :
  turn_ok n st ->
  (0 <= i < Z.of_nat (length (libraries st)))%Z ->
  turn_ok n (mkCli (cli_store st) (libraries st) i (stdin st)).
Proof. intros [[Hr Htwo Hact Hlibs Hu Hp] Hlen] Hi. by split. Qed.

Lemma menu_merge_ok n st lib :
  turn_ok n st ->
  lib < length (library_heap (cli_store st)) ->
  cli_wp (menu_merge lib) st (fun _ => turn_ok n) (turn_ok n).
Proof.
  intros Hok Hlib. unfold menu_merge.
  pose proof (turn_ok_wf _ _ Hok) as Hwf.
  pose proof Hok as [[Hr Htwo Hact Hlibs Hu Hp] Hlen].
  apply wp_bind, wp_get_state.
  destruct (py_index_partner (libraries st) (active_idx st) Htwo Hact)
    as [Hidx Hpos].
  apply lookup_lt_is_Some in Hpos as [other Hother].
  apply wp_bind. eapply wp_getitem; [by rewrite Hidx|].
  assert (other < length (library_heap (cli_store st))) as Hvalid.
  { unfold refs_ok in Hlibs. rewrite Forall_forall in Hlibs.
    apply Hlibs, list_elem_of_lookup. by eexists. }
  apply lookup_lt_is_Some in Hlib as [a Ha].
  apply lookup_lt_is_Some in Hvalid as [o Ho].
  apply wp_bind.
  eapply (wp_call_exec _ (Merge lib other) VRef);
    [done|exact Hok| |done|done|].
  { do 2 eexists. by apply Library___add___eq. }
  intros merged s' Hc Hok1.
  rewrite (Library___add___eq _ lib other a o Hwf Ha Ho) in Hc.
  inversion Hc; subst merged s'; clear Hc.
  apply (turn_ok_append n _ _ Hok1). simpl. rewrite length_app. simpl. lia.
Qed.

Lemma menu_switch_ok B n st :
  turn_ok n st ->
  cli_wp (menu_switch B) st (fun _ => turn_ok n) (turn_ok n).
Proof.
  intros Hok. unfold menu_switch.
  pose proof Hok as [[Hr Htwo Hact Hlibs Hu Hp] Hlen].
  apply wp_bind, wp_get_state.
  apply wp_bind. eapply wp_call_read; [by apply print_names_loop_eq|].
  apply wp_bind, wp_read_int;
    [intros new_idx rest Hidx Hl
    |intros rest Hl; apply turn_ok_stdin; [done|lia]].
  assert (turn_ok n (with_stdin rest st)) as Hok1
    by (apply turn_ok_stdin; [done|lia]).
  unfold cli_wp.
  destruct (_ && _) eqn:Hcond; [|done].
  apply andb_true_iff in Hcond as [H0%Z.leb_le H1%Z.ltb_lt].
  by apply (turn_ok_switch n _ _ Hok1).
Qed.

Lemma cli_body_ok B n st :
  turn_ok (S n) st ->
  cli_wp (cli_body B) st (fun _ => turn_ok n) (turn_ok n).
Proof.
  intros [Hs Hlen]. unfold cli_body.
  assert (forall rest, length rest < length (stdin st) ->
            turn_ok n (with_stdin rest st)) as Hnext.
  { intros rest Hl. split; [|simpl; lia]. destruct Hs. by split. }
  apply wp_bind, wp_read_int; [intros choice rest Hchoice Hl|by auto].
  specialize (Hnext rest Hl). set (st1 := with_stdin rest st) in *.
  pose proof Hnext as [[Hr Htwo Hact Hlibs Hu Hp] _].
  apply wp_bind, wp_get_state.
  assert (is_Some (libraries st1 !! Z.to_nat (active_idx st1))) as [lib Hl1].
  { apply lookup_lt_is_Some. lia. }
  apply wp_bind. eapply wp_getitem.
  { rewrite py_index_nonneg by lia. exact Hl1. }
  assert (lib < length (library_heap (cli_store st1))) as Hlib.
  { unfold refs_ok in Hlibs. rewrite Forall_forall in Hlibs.
    apply Hlibs, list_elem_of_lookup. by eexists. }
  destruct (choice =? 1)%Z.
  { pose proof (reachable_wf _ Hr) as Hwf.
    pose proof Hlib as [x Hx]%lookup_lt_is_Some.
    destruct (Library_show_books_total (cli_store st1) lib x Hwf Hx)
      as [lines Hsb].
    { apply printable_ids; [done|by eapply wf_books]. }
    apply wp_bind. eapply wp_call_read; [exact Hsb|]. by apply wp_ret. }
  destruct (choice =? 2)%Z; [by apply menu_register_ok|].
  destruct (choice =? 3)%Z; [by apply menu_add_book_ok|].
  destruct (choice =? 4)%Z; [by apply menu_remove_book_ok|].
  destruct (choice =? 5)%Z; [by apply menu_borrow_ok|].
  destruct (choice =? 6)%Z; [by apply menu_return_ok|].
  destruct (choice =? 7)%Z; [by apply menu_list_borrowed_ok|].
  destruct (choice =? 8)%Z; [by apply menu_merge_ok|].
  destruct (choice =? 9)%Z; [by apply menu_switch_ok|].
  destruct (choice =? 0)%Z; [exact Hnext|].
  by apply wp_ret.
Qed.

Lemma cli_body_eof B st : stdin st = [] -> cli_body B st = Crash EOFError.
Proof.
  intros H. unfold cli_body, read_int, cli_bind, input. by rewrite H.
Qed.

(** X15. One turn of the menu loop keeps the session sound.  If before
    the turn the store is one that calls can produce, there are at least
    two libraries, each entry of [libraries] is a library object,
    [active_idx] is a valid index, no library holds two books with one
    identifier, and every book identifier has at most 4300 digits, as
    those that [int] reads from the input have, then the same holds
    after the turn, whichever option was chosen and whatever was typed;
    the turn has read at least one line; and the only exception that
    can escape it is [EOFError]. *)
Theorem session_turn B st :
  session_ok st ->
  match cli_body B st with
  | Next _ st' | Continue st' | Break st' =>
      session_ok st' /\ length (stdin st') < length (stdin st)
  | Crash f => f = EOFError
  end.
Proof.
  intros Hs. destruct (stdin st) as [|line rest] eqn:Hin.
  { by rewrite cli_body_eof. }
  assert (turn_ok (S (length rest)) st) as Hok.
  { split; [done|]. rewrite Hin. simpl. lia. }
  pose proof (cli_body_ok B _ _ Hok) as H. unfold cli_wp, turn_ok in H.
  destruct (cli_body B st); try done;
    (destruct H as [H1 H2]; split; [done|simpl; lia]).
Qed.

Lemma unique_book_ids_seeded : unique_book_ids (store_after seeded).
Proof.
  intros lib x Hx. destruct lib as [|[|lib]]; vm_compute in Hx.
  - inversion Hx; subst.
    replace (book_id_of (store_after seeded) <$> _)
      with [101%Z; 102%Z] by (vm_compute; reflexivity).
    apply NoDup_cons. split; [|apply NoDup_singleton].
    intros Hin%list_elem_of_singleton. discriminate Hin.
  - inversion Hx; subst.
    replace (book_id_of (store_after seeded) <$> _)
      with [201%Z; 202%Z] by (vm_compute; reflexivity).
    apply NoDup_cons. split; [|apply NoDup_singleton].
    intros Hin%list_elem_of_singleton. discriminate Hin.
  - by destruct lib.
Defined.

Lemma printable_books_seeded : printable_books (store_after seeded).
Proof.
  intros b bk Hb.
  do 4 (destruct b as [|b];
        [vm_compute in Hb; inversion Hb; subst; reflexivity|]).
  vm_compute in Hb. discriminate Hb.
Defined.

Lemma session_ok_seeded lines :
  session_ok (mkCli (store_after seeded) [0; 1] 0 lines).
Proof.
  split; cbn [cli_store libraries active_idx stdin].
  - apply store_after_reachable.
  - cbn [length]. lia.
  - cbn [length]. lia.
  - apply refs_ok_cons. split; [vm_compute; lia|].
    apply refs_ok_singleton. vm_compute. lia.
  - apply unique_book_ids_seeded.
  - apply printable_books_seeded.
Defined.

Lemma session_turn_witness :
  match cli_body plain_builtins
          (mkCli (store_after seeded) [0; 1] 0 ["5"; "1"; "101"]) with
  | Next _ st' | Continue st' | Break st' =>
      session_ok st' /\
      length (stdin st')
        < length (stdin (mkCli (store_after seeded) [0; 1] 0
                           ["5"; "1"; "101"]))
  | Crash f => f = EOFError
  end.
Proof.
  apply (session_turn plain_builtins
           (mkCli (store_after seeded) [0; 1] 0 ["5"; "1"; "101"])).
  apply session_ok_seeded.
Defined.

Lemma cli_loop_ok B fuel n st :
  turn_ok n st -> n < fuel ->
  match cli_loop B fuel st with
  | Exited st' => session_ok st'
  | Crashed f => f = EOFError
  | OutOfFuel => False
  end.
Proof.
  revert n st. induction fuel as [|fuel IH]; intros n st Hok Hlt; [lia|].
  simpl. destruct n as [|n].
  { destruct Hok as [_ Hlen]. rewrite cli_body_eof; [done|].
    destruct (stdin st); [done|simpl in Hlen; lia]. }
  pose proof (cli_body_ok B _ _ Hok) as H. unfold cli_wp in H.
  destruct (cli_body B st) as [a st'|st'|st'|f].
  - apply (IH n); [done|lia].
  - apply (IH n); [done|lia].
  - by destruct H.
  - done.
Qed.

(** X16. [run_cli] always ends, whatever the input: either by menu 0,
    in a sound session, or with [EOFError] when the input runs out
    before menu 0 is chosen.  As many turns as there are lines, plus
    one, are enough; no [IndexError], no [ValueError] and no fault of a
    method ever escapes the loop. *)
Theorem run_cli_ends B lines :
  match run_cli B lines with
  | Exited st => session_ok st
  | Crashed f => f = EOFError
  | OutOfFuel => False
  end.
Proof.
  unfold run_cli.
  change (seed_demo_data empty_store) with (Ok (0, 1) (store_after seeded)).
  apply (cli_loop_ok B _ (length lines)); [|lia].
  split; [apply session_ok_seeded|done].
Qed.

Example run_cli_example :
  exists st,
    run_cli plain_builtins
      ["5"; "1"; "101"; "8"; "8"; "9"; "1"; "3"; "t"; "a"; "101"; "x";
       "5"; "abc"; "0"; "never read"] = Exited st /\
    libraries st = [0; 1; 2; 3] /\ active_idx st = 1%Z /\
    stdin st = ["never read"] /\
    Library.name <$> library_heap (cli_store st) !! 3 =
      Some "Central Library & AI Library & Central Library & AI Library".
Proof. eexists. split_and!; vm_compute; reflexivity. Qed.

(** X17. At menu 5 and menu 6 the two numbers are read inside one
    [try]: when the member identifier is not a number, the loop
    continues at once, nothing changes, and the line meant as the book
    identifier is not read; it is the next menu choice. *)
Theorem bad_member_id_leaves_next_line B st choice_line id_line rest lib :
  stdin st = choice_line :: id_line :: rest ->
  int_of B (strip B choice_line) = Some 5%Z \/
  int_of B (strip B choice_line) = Some 6%Z ->
  int_of B (strip B id_line) = None ->
  py_index (libraries st) (active_idx st) = Some lib ->
  cli_body B st = Continue (with_stdin rest st).
Proof.
  intros Hin Hchoice Hbad Hlib.
  unfold cli_body, menu_borrow, menu_return, read_int, cli_bind, input,
    get_state, getitem.
  rewrite Hin. simpl.
  destruct Hchoice as [-> | ->]; simpl; rewrite Hlib; simpl;
    by rewrite Hbad.
Qed.

Lemma bad_member_id_leaves_next_line_witness :
  cli_body plain_builtins
    (mkCli (store_after seeded) [0; 1] 0 ["5"; "abc"; "101"; "0"])
  = Continue
      (with_stdin ["101"; "0"]
         (mkCli (store_after seeded) [0; 1] 0 ["5"; "abc"; "101"; "0"])).
Proof.
  apply (bad_member_id_leaves_next_line plain_builtins
           (mkCli (store_after seeded) [0; 1] 0 ["5"; "abc"; "101"; "0"])
           "5" "abc" ["101"; "0"] 0).
  - reflexivity.
  - left. reflexivity.
  - reflexivity.
  - reflexivity.
Defined.

(** X18. Menu 8 merges the active library with [libraries[1 -
    active_idx]], an index that is negative from [active_idx = 2] on and
    then counts from the end of the list: the partner of library 0 is
    library 1, the partner of library 1 is library 0, and the partner of
    library [i >= 2] is the library at [len + 1 - i].  The merge always
    goes through; the merged library is appended and becomes the active
    one.  Right after a first merge the active library is library 2, the
    last of three, and its partner is itself. *)
Theorem merge_partner B st line rest :
  session_ok st ->
  stdin st = line :: rest ->
  int_of B (strip B line) = Some 8%Z ->
  exists active other merged s',
    libraries st !! Z.to_nat (active_idx st) = Some active /\
    libraries st
      !! partner_position (length (libraries st)) (active_idx st)
      = Some other /\
    Library___add__ active other (cli_store st) = Ok merged s' /\
    cli_body B st =
      Next tt (mkCli s' (libraries st ++ [merged])
                 (Z.of_nat (length (libraries st))) rest) /\
    (active_idx st = 2%Z -> length (libraries st) = 3 -> other = active).
Proof.
  intros Hs Hin Hchoice.
  pose proof Hs as [Hr Htwo Hact Hlibs Hu Hp].
  pose proof (reachable_wf _ Hr) as Hwf.
  assert (is_Some (libraries st !! Z.to_nat (active_idx st))) as [active Ha].
  { apply lookup_lt_is_Some. lia. }
  destruct (py_index_partner (libraries st) (active_idx st) Htwo Hact)
    as [Hidx Hpos].
  apply lookup_lt_is_Some in Hpos as [other Hother].
  assert (forall lib, lib ∈ libraries st ->
            is_Some (library_heap (cli_store st) !! lib)) as Hvalid.
  { intros lib Hlib. apply lookup_lt_is_Some.
    unfold refs_ok in Hlibs. rewrite Forall_forall in Hlibs. by apply Hlibs. }
  destruct (Hvalid active) as [a Hla]; [apply list_elem_of_lookup; by eexists|].
  destruct (Hvalid other) as [o Hlo]; [apply list_elem_of_lookup; by eexists|].
  pose proof (Library___add___eq _ active other a o Hwf Hla Hlo) as Hadd.
  do 4 eexists. split_and!; [done|done|exact Hadd| |].
  - unfold cli_body, menu_merge, read_int, cli_bind, input, get_state,
      getitem, call.
    rewrite Hin. simpl. rewrite Hchoice. simpl.
    rewrite py_index_nonneg by lia. rewrite Ha. simpl.
    rewrite Hidx, Hother. simpl. rewrite Hadd. simpl. do 2 f_equal.
    rewrite length_app. simpl. lia.
  - intros Hi Hlen. rewrite Hi, Hlen in Hother. rewrite Hi in Ha.
    change (partner_position 3 2) with 2 in Hother.
    change (Z.to_nat 2) with 2 in Ha. congruence.
Qed.

Lemma merge_partner_witness :
  exists active other merged s',
    [0; 1] !! Z.to_nat 0 = Some active /\
    [0; 1] !! partner_position (length [0; 1]) 0 = Some other /\
    Library___add__ active other (store_after seeded) = Ok merged s' /\
    cli_body plain_builtins (mkCli (store_after seeded) [0; 1] 0 ["8"; "0"]) =
      Next tt (mkCli s' ([0; 1] ++ [merged]) (Z.of_nat (length [0; 1])) ["0"])
    /\
    (0%Z = 2%Z -> length [0; 1] = 3 -> other = active).
Proof.
  apply (merge_partner plain_builtins
           (mkCli (store_after seeded) [0; 1] 0 ["8"; "0"]) "8" ["0"]).
  - apply session_ok_seeded.
  - reflexivity.
  - reflexivity.
Defined.

Example merge_twice :
  exists st,
    cli_loop plain_builtins 2
      (mkCli (store_after seeded) [0; 1] 0 ["8"; "8"; "0"]) = OutOfFuel \/
    cli_loop plain_builtins 3
      (mkCli (store_after seeded) [0; 1] 0 ["8"; "8"; "0"]) = Exited st /\
    libraries st = [0; 1; 2; 3] /\
    Library.books <$> library_heap (cli_store st) !! 3 = Some [0; 1; 2; 3].
Proof. eexists. right. split_and!; vm_compute; reflexivity. Qed.
